(** * python-ternary: projection, lines, lattice enumeration and heatmaps

    A shallow embedding of [ternary/plotting.py].

    Numbers.  Python integers are [Z].  The drawing code is embedded over
    idealised floats: scalar heatmap values, which only undergo field
    operations and comparisons, are exact rationals ([Qc], with Leibniz
    equality), and planar coordinates, which involve [math.sqrt(3)], are
    real numbers ([R]).  That layer carries the statements about control
    flow, order of drawing, axes and exceptions, none of which depends on
    rounding.  The numeric functions [normalize], [project_point] and
    [colormapper] are embedded a second time in module [Binary64], over
    IEEE 754 doubles (Rocq's primitive floats: round to nearest, ties to
    even, as CPython's float operations); what depends on how these
    functions round is stated and proved there.

    Effects.  Drawing goes to matplotlib; the embedding keeps the state of
    pyplot that the renderers touch (the axes that exist, the current axes,
    and the primitives issued so far) in a record [World], and threads it,
    together with Python exceptions, through a small state-and-error monad. *)

From Stdlib Require Import Floats.
From Stdlib Require Import ZArith QArith Qcanon Reals Lra Lia List String Ascii Bool.
From Stdlib Require Import Sorting.Sorted.
From stdpp Require Import base gmap strings list fin_maps.
Import ListNotations.
Open Scope Z_scope.

(** Decimal float literals denote the nearest double, as in Python. *)
Set Warnings "-inexact-float".

(** ** Python prelude *)

(** The exceptions the module can raise; a [ValueError] carries its
    message, which tells its raise sites apart. *)
Inductive exn : Type :=
| KeyError
| ValueError (msg : string)
| ZeroDivisionError
| TypeError
| OverflowError.

Definition empty_min : string := "min() arg is an empty sequence".
Definition empty_max : string := "max() arg is an empty sequence".
Definition unpack_empty : string := "need more than 0 values to unpack".
Definition unknown_colormap : string := "Colormap is not recognized".

Inductive result (A : Type) : Type :=
| Ok (a : A)
| Raise (e : exn).
Arguments Ok {A} a.
Arguments Raise {A} e.

Definition rbind {A B} (r : result A) (k : A -> result B) : result B :=
  match r with
  | Ok a => k a
  | Raise e => Raise e
  end.

(** [[f(x) for x in xs]] where [f] may raise: evaluation stops at the first
    exception. *)
Fixpoint rmap {A B} (f : A -> result B) (xs : list A) : result (list B) :=
  match xs with
  | [] => Ok []
  | x :: xs' => rbind (f x) (fun y => rbind (rmap f xs') (fun ys => Ok (y :: ys)))
  end.

(** [range(lo, hi)]: empty when [hi <= lo]. *)
Definition range (lo hi : Z) : list Z :=
  map (fun k => lo + Z.of_nat k) (seq 0 (Z.to_nat (hi - lo))).

(** [float(z)] for an integer [z]. *)
Definition float (z : Z) : Qc := Q2Qc (inject_Z z).

Definition Qc_min (x y : Qc) : Qc := if decide (y < x)%Qc then y else x.
Definition Qc_max (x y : Qc) : Qc := if decide (x < y)%Qc then y else x.

(** [min(xs)] and [max(xs)]: [ValueError] on an empty sequence. *)
Definition py_min (xs : list Qc) : result Qc :=
  match xs with
  | [] => Raise (ValueError empty_min)
  | x :: xs' => Ok (fold_left Qc_min xs' x)
  end.

Definition py_max (xs : list Qc) : result Qc :=
  match xs with
  | [] => Raise (ValueError empty_max)
  | x :: xs' => Ok (fold_left Qc_max xs' x)
  end.

(** [str.lower()] on ASCII strings. *)
Definition lower_ascii (c : ascii) : ascii :=
  let n := nat_of_ascii c in
  if (Nat.leb 65 n && Nat.leb n 90)%bool then ascii_of_nat (n + 32) else c.

Fixpoint lower (s : string) : string :=
  match s with
  | EmptyString => EmptyString
  | String c s' => String (lower_ascii c) (lower s')
  end.

(** [s.startswith(p)] *)
Definition startswith (s p : string) : bool := String.prefix p s.

(** ** Constants *)

Definition SQRT3OVER2 : R := (sqrt 3 / 2)%R.

(** ** Helpers *)

(** [unzip(l)] is [zip( *l)]; its callers unpack the result into two
    sequences, which raises [ValueError] when [l] is empty. *)
Definition unzip {A B} (l : list (A * B)) : result (list A * list B) :=
  match l with
  | [] => Raise (ValueError unpack_empty)
  | _ => Ok (List.split l)
  end.

Definition normalize (xs : list Z) : result (list Qc) :=
  let s := float (fold_right Z.add 0 xs) in
  rmap (fun x => if decide (s = 0%Qc) then Raise ZeroDivisionError
                 else Ok (float x / s)%Qc) xs.

(** ** Ternary projections *)

Definition project_point (p : R * R * R) : R * R :=
  let '(a, b, c) := p in
  let x := (b + c / 2)%R in
  let y := (SQRT3OVER2 * c)%R in
  (x, y).

(** ** Heatmaps: the lattice *)

Definition simplex_points (steps : Z) (boundary : bool) : list (Z * Z * Z) :=
  let start := if boundary then 0 else 1 in
  flat_map (fun x1 =>
    map (fun x2 => let x3 := steps - x1 - x2 in (x1, x2, x3))
        (range start (steps + (1 - start) - x1)))
    (range start (steps + (1 - start))).

(** Order in which the nested loops of [simplex_points] visit the lattice:
    first coordinate ascending, then second coordinate ascending. *)
Definition loop_lt (p q : Z * Z * Z) : Prop :=
  let '(p1, p2, _) := p in
  let '(q1, q2, _) := q in
  p1 < q1 \/ (p1 = q1 /\ p2 < q2).

(** ** Double precision

    Python's numbers as the interpreter has them: an [int] is unbounded,
    a [float] is a binary64 value.  Mixed arithmetic converts the [int]
    operand with [float(...)], which rounds to the nearest double and
    raises [OverflowError] beyond the largest finite one. *)
Module Binary64.

Inductive num : Type :=
| Int (z : Z)
| Float (f : PrimFloat.float).

(** [float(z)] for an [int] [z]. *)
Definition float_of_int (z : Z) : result PrimFloat.float :=
  match binary_normalize prec emax z 0 false with
  | S754_infinity _ => Raise OverflowError
  | sf => Ok (SF2Prim sf)
  end.

(** [float(n)], and the conversion of an operand of mixed arithmetic. *)
Definition to_float (n : num) : result PrimFloat.float :=
  match n with
  | Int z => float_of_int z
  | Float f => Ok f
  end.

(** [x + y] and [x - y]: exact on two [int]s, in double precision
    otherwise. *)
Definition add (x y : num) : result num :=
  match x, y with
  | Int a, Int b => Ok (Int (a + b))
  | _, _ => rbind (to_float x) (fun fx =>
            rbind (to_float y) (fun fy => Ok (Float (fx + fy)%float)))
  end.

Definition sub (x y : num) : result num :=
  match x, y with
  | Int a, Int b => Ok (Int (a - b))
  | _, _ => rbind (to_float x) (fun fx =>
            rbind (to_float y) (fun fy => Ok (Float (fx - fy)%float)))
  end.

(** [x / s] for a float [s]: [ZeroDivisionError] when [s == 0.0]. *)
Definition truediv (x : num) (s : PrimFloat.float) : result PrimFloat.float :=
  rbind (to_float x) (fun fx =>
  if (s =? 0)%float then Raise ZeroDivisionError else Ok (fx / s)%float).

(** [n == 0]. *)
Definition is_zero (n : num) : bool :=
  match n with
  | Int z => z =? 0
  | Float f => (f =? 0)%float
  end.

(** [sum(xs)]: a left fold of [+] from the [int] 0. *)
Definition sum (xs : list num) : result num :=
  fold_left (fun acc x => rbind acc (fun s => add s x)) xs (Ok (Int 0)).

Definition SQRT3OVER2 : PrimFloat.float := (PrimFloat.sqrt 3 / 2)%float.

Definition normalize (xs : list num) : result (list PrimFloat.float) :=
  rbind (sum xs) (fun t =>
  rbind (to_float t) (fun s =>
  rmap (fun x => truediv x s) xs)).

Definition project_point (p : num * num * num)
  : result (PrimFloat.float * PrimFloat.float) :=
  let '(a, b, c) := p in
  rbind (to_float c) (fun fc =>
  rbind (to_float b) (fun fb =>
  let x := (fb + fc / 2)%float in
  let y := (SQRT3OVER2 * fc)%float in
  Ok (x, y))).

(** [p == q] on two pairs of floats. *)
Definition pair_eqb (p q : PrimFloat.float * PrimFloat.float) : bool :=
  (fst p =? fst q)%float && (snd p =? snd q)%float.

Section Palette.

Variable RGBA : Type.
(** A palette is called on the [int] 0 in the degenerate branch and on a
    float otherwise. *)
Variable DEFAULT_COLOR_MAP : num -> RGBA.
Variable rgb2hex : RGBA -> string.

Definition colormapper (x a b : num) (cmap : option (num -> RGBA))
  : result string :=
  let cmap := match cmap with
              | None => DEFAULT_COLOR_MAP
              | Some cmap => cmap
              end in
  rbind (sub b a) (fun d =>
  rbind (if is_zero d then Ok (cmap (Int 0))
         else rbind (sub x a) (fun n =>
              rbind (sub b a) (fun d' =>
              rbind (to_float d') (fun fd =>
              rbind (truediv n fd) (fun q => Ok (cmap (Float q)))))))
        (fun rgba =>
  let hex_ := rgb2hex rgba in
  Ok hex_)).

End Palette.



End Binary64.

(** ** matplotlib and the drawing state

    Everything the module asks of matplotlib is collected here.  A palette
    ([Colormap]) is a callable from a position to an RGBA value; axes are
    handles into pyplot's state. *)

Definition AxId := nat.

(** A small stand-in for matplotlib, on which closed examples run: colors
    are palette positions, the only named palette is "jet", and
    [hex_coordinates] gives no lattice cell a hexagon. *)
Module Demo.

Definition RGBA : Type := Qc.

Definition jet : Qc -> RGBA := fun t => t.

Definition get_cmap (name : string) : option (Qc -> RGBA) :=
  if String.eqb name "jet" then Some jet else None.

Definition rgb2hex (c : RGBA) : string :=
  if decide (c = 0%Qc) then "#000080"%string else "#800000"%string.

Definition hex_coordinates (i j steps : Z) : option (list (R * R)) := None.


End Demo.

Section Plotting.

Variable RGBA : Type.
Definition Colormap : Type := Qc -> RGBA.

(** [DEFAULT_COLOR_MAP = pyplot.get_cmap('jet')] *)
Variable DEFAULT_COLOR_MAP : Colormap.
(** [pyplot.get_cmap(name)]; [None] stands for the [ValueError] raised on
    an unknown name. *)
Variable get_cmap : string -> option Colormap.
(** [matplotlib.colors.rgb2hex] *)
Variable rgb2hex : RGBA -> string.
(** [hexagonal_heatmap.hex_coordinates(i, j, steps)], imported from a module
    that is not part of the sources at hand. *)
Variable hex_coordinates : Z -> Z -> Z -> option (list (R * R)).

(** What ends up on an axes: a filled polygon, or the colorbar attached by
    [pyplot.colorbar(sm, ax=ax, format=...)] with its optional
    [LinearLocator] tick count and [ScalarFormatter]. *)
Inductive Prim : Type :=
| Fill (x y : list R) (facecolor edgecolor : string)
| Colorbar (cmap : Colormap) (vmin vmax : Qc) (format : string)
           (numticks : option Z) (scalar_formatter : bool).

Record World : Type := mkWorld {
  next_ax : AxId;              (* the next axes pyplot will create *)
  current : option AxId;       (* pyplot's current axes, if any *)
  drawn : list (AxId * Prim)   (* primitives issued so far, oldest first *)
}.

(** Computations that draw and may raise. *)
Definition M (A : Type) : Type := World -> result A * World.

Definition ret {A} (a : A) : M A := fun w => (Ok a, w).
Definition raise {A} (e : exn) : M A := fun w => (Raise e, w).
Definition lift {A} (r : result A) : M A := fun w => (r, w).
Definition bind {A B} (m : M A) (k : A -> M B) : M B :=
  fun w => match m w with
           | (Ok a, w') => k a w'
           | (Raise e, w') => (Raise e, w')
           end.

Notation "x <- c1 ;; c2" := (bind c1 (fun x => c2))
  (at level 100, c1 at next level, right associativity).
Notation "c1 ;; c2" := (bind c1 (fun _ => c2))
  (at level 100, right associativity).

(** [for x in xs: body(x)] *)
Fixpoint for_each {A} (xs : list A) (body : A -> M unit) : M unit :=
  match xs with
  | [] => ret tt
  | x :: xs' => body x ;; for_each xs' body
  end.

(** [try: body / except KeyError: pass] *)
Definition except_KeyError_pass (body : M unit) : M unit :=
  fun w => match body w with
           | (Raise KeyError, w') => (Ok tt, w')
           | r => r
           end.

(** [pyplot.subplot()]: an axes that becomes the current one. *)
Definition pyplot_subplot : M AxId :=
  fun w => let ax := next_ax w in
           (Ok ax, mkWorld (S ax) (Some ax) (drawn w)).

(** [pyplot.gca()]: the current axes, created on demand. *)
Definition pyplot_gca : M AxId :=
  fun w => match current w with
           | Some ax => (Ok ax, w)
           | None => pyplot_subplot w
           end.

Definition issue (ax : AxId) (p : Prim) : M unit :=
  fun w => (Ok tt, mkWorld (next_ax w) (current w) (drawn w ++ [(ax, p)])).

(** [ax.fill(x, y, facecolor=..., edgecolor=...)] *)
Definition ax_fill (ax : AxId) (x y : list R) (facecolor edgecolor : string)
  : M unit :=
  issue ax (Fill x y facecolor edgecolor).

(** [pyplot.fill(x, y, ...)] draws on pyplot's current axes. *)
Definition pyplot_fill (x y : list R) (facecolor edgecolor : string)
  : M unit :=
  ax <- pyplot_gca ;; ax_fill ax x y facecolor edgecolor.

Definition pyplot_get_cmap (name : string) : M Colormap :=
  match get_cmap name with
  | Some cmap => ret cmap
  | None => raise (ValueError unknown_colormap)
  end.

(** ** Value maps: [d] is a dictionary of [(i,j) --> c] pairs *)

Definition getitem (d : gmap (Z * Z) Qc) (k : Z * Z) : result Qc :=
  match d !! k with
  | Some v => Ok v
  | None => Raise KeyError
  end.

Definition items (d : gmap (Z * Z) Qc) : list ((Z * Z) * Qc) := map_to_list d.
Definition values (d : gmap (Z * Z) Qc) : list Qc := map snd (map_to_list d).

(** ** Heatmaps: colors and cells *)

(** The palette is called on the integer [0] in the degenerate branch and
    on a float otherwise; a matplotlib palette returns its first color for
    both [0] and [0.0], so one position [0] stands for either. *)
Definition colormapper (x a b : Qc) (cmap : option Colormap) : string :=
  let cmap := match cmap with
              | None => DEFAULT_COLOR_MAP
              | Some cmap => cmap
              end in
  let rgba := if decide (b - a = 0)%Qc then cmap 0%Qc
              else cmap ((x - a) / (b - a))%Qc in
  let hex_ := rgb2hex rgba in
  hex_.

Definition triangle_coordinates (i j : Z) (alt : bool) : list (R * R) :=
  if negb alt then
    [ (IZR i / 2 + IZR j, IZR i * SQRT3OVER2);
      (IZR i / 2 + IZR j + 1, IZR i * SQRT3OVER2);
      (IZR i / 2 + IZR j + 1 / 2, IZR (i + 1) * SQRT3OVER2) ]%R
  else
    [ (IZR i / 2 + IZR j + 1, IZR i * SQRT3OVER2);
      (IZR i / 2 + IZR j + 3 / 2, IZR (i + 1) * SQRT3OVER2);
      (IZR i / 2 + IZR j + 1 / 2, IZR (i + 1) * SQRT3OVER2) ]%R.

(** [if not cmap_name: cmap = DEFAULT_COLOR_MAP / else: get_cmap(cmap_name)];
    the empty string is falsy like [None]. *)
Definition resolve_cmap (cmap_name : option string) : M Colormap :=
  match cmap_name with
  | None | Some EmptyString => ret DEFAULT_COLOR_MAP
  | Some name => pyplot_get_cmap name
  end.

(** [if not ax: ax = pyplot.subplot()] *)
Definition resolve_ax (ax : option AxId) : M AxId :=
  match ax with
  | None => pyplot_subplot
  | Some ax => ret ax
  end.

(** The body of the data loop of [heatmap_hexagonal], at the item [(k, v)]
    of [d]. *)
Definition fill_hexagon (d : gmap (Z * Z) Qc) (steps : Z) (a b : Qc)
    (cmap : Colormap) (ax : AxId) (kv : (Z * Z) * Qc) : M unit :=
  let '(k, v) := kv in
  let '(i, j) := k in
  let vertices := hex_coordinates i j steps in
  match vertices with
  | Some vertices =>
      xy <- lift (unzip vertices) ;;
      let '(x, y) := xy in
      dij <- lift (getitem d (i, j)) ;;
      let color := colormapper dij a b (Some cmap) in
      ax_fill ax x y color color
  | None => ret tt
  end.

Definition heatmap_hexagonal (d : gmap (Z * Z) Qc) (steps : Z)
    (cmap_name : option string) (boundary : bool) (ax : option AxId)
    (scientific : bool) (min_max_scale : option (Qc * Qc)) : M AxId :=
  ax <- resolve_ax ax ;;
  cmap <- resolve_cmap cmap_name ;;
  ab <- match min_max_scale with
        | None =>
            a <- lift (py_min (values d)) ;;
            b <- lift (py_max (values d)) ;;
            ret (a, b)
        | Some min_max_scale => ret (fst min_max_scale, snd min_max_scale)
        end ;;
  let '(a, b) := ab in
  (* Color data triangles. *)
  for_each (items d) (fill_hexagon d steps a b cmap ax) ;;
  (* Colorbar hack *)
  issue ax (Colorbar cmap a b "%.4f" (Some 7) scientific) ;;
  ret ax.

(** The body of the data loop of [heatmap_triangular], at the item
    [(k, v)] of [d]. *)
Definition fill_triangle (d : gmap (Z * Z) Qc) (a b : Qc) (cmap : Colormap)
    (ax : AxId) (kv : (Z * Z) * Qc) : M unit :=
  let '(k, v) := kv in
  let '(i, j) := k in
  let vertices := triangle_coordinates i j false in
  xy <- lift (unzip vertices) ;;
  let '(x, y) := xy in
  dij <- lift (getitem d (i, j)) ;;
  let color := colormapper dij a b (Some cmap) in
  ax_fill ax x y color color.

(** The body of the smoothing loop of [heatmap_triangular] at [(i, j)]:
    the [try ... except KeyError: pass] block. *)
Definition smoothing_step (d : gmap (Z * Z) Qc) (a b : Qc) (cmap : Colormap)
    (i j : Z) : M unit :=
  except_KeyError_pass (
    d00 <- lift (getitem d (i, j)) ;;
    d01 <- lift (getitem d (i, j + 1)) ;;
    d10 <- lift (getitem d (i + 1, j)) ;;
    let alt_color := ((d00 + d01 + d10) / float 3)%Qc in
    let color := colormapper alt_color a b (Some cmap) in
    let vertices := triangle_coordinates i j true in
    xy <- lift (unzip vertices) ;;
    let '(x, y) := xy in
    pyplot_fill x y color color).

(** The smoothing loops of [heatmap_triangular]. *)
Definition smoothing_loop (d : gmap (Z * Z) Qc) (steps : Z) (boundary : bool)
    (a b : Qc) (cmap : Colormap) : M unit :=
  let offset := if negb boundary then 1 else 0 in
  for_each (range offset (steps + 1 - offset)) (fun i =>
    for_each (range offset (steps - i - offset)) (fun j =>
      smoothing_step d a b cmap i j)).

Definition heatmap_triangular (d : gmap (Z * Z) Qc) (steps : Z)
    (cmap_name : option string) (boundary : bool) (ax : option AxId)
    (scientific : bool) : M AxId :=
  ax <- resolve_ax ax ;;
  cmap <- resolve_cmap cmap_name ;;
  a <- lift (py_min (values d)) ;;
  b <- lift (py_max (values d)) ;;
  (* Color data triangles. *)
  for_each (items d) (fill_triangle d a b cmap ax) ;;
  (* Color smoothing triangles. *)
  smoothing_loop d steps boundary a b cmap ;;
  (* Colorbar hack *)
  issue ax (Colorbar cmap a b "%.3f" None scientific) ;;
  ret ax.

(** Keyword arguments of a call [heatmap( *args, **kwargs)].  [heatmap]
    reads and deletes [style] itself, so a missing [style] and
    [style=None] are kept apart.  The remaining keywords go to the
    renderer; for those whose default is [None] a missing keyword and an
    explicit [None] mean the same, and one [option] covers both.
    [min_max_scale] is a parameter of [heatmap_hexagonal] only, so its mere
    presence matters. *)
Record Kwargs : Type := mkKwargs {
  kw_style : option (option string);
  kw_cmap_name : option string;
  kw_boundary : option bool;
  kw_ax : option AxId;
  kw_scientific : option bool;
  kw_min_max_scale : option (option (Qc * Qc))
}.

(** [del kwargs['style']] *)
Definition del_style (kwargs : Kwargs) : result Kwargs :=
  match kw_style kwargs with
  | Some _ =>
      Ok (mkKwargs None (kw_cmap_name kwargs) (kw_boundary kwargs)
                   (kw_ax kwargs) (kw_scientific kwargs)
                   (kw_min_max_scale kwargs))
  | None => Raise KeyError
  end.

Definition default {A} (dflt : A) (o : option A) : A :=
  match o with Some a => a | None => dflt end.

(** [heatmap_triangular( *args, **kwargs)] with [args = (d, steps)]. *)
Definition call_heatmap_triangular (d : gmap (Z * Z) Qc) (steps : Z)
    (kwargs : Kwargs) : M AxId :=
  match kw_style kwargs, kw_min_max_scale kwargs with
  | None, None =>
      heatmap_triangular d steps (kw_cmap_name kwargs)
        (default true (kw_boundary kwargs)) (kw_ax kwargs)
        (default false (kw_scientific kwargs))
  | _, _ => raise TypeError   (* unexpected keyword argument *)
  end.

(** [heatmap_hexagonal( *args, **kwargs)] with [args = (d, steps)]. *)
Definition call_heatmap_hexagonal (d : gmap (Z * Z) Qc) (steps : Z)
    (kwargs : Kwargs) : M AxId :=
  match kw_style kwargs with
  | None =>
      heatmap_hexagonal d steps (kw_cmap_name kwargs)
        (default true (kw_boundary kwargs)) (kw_ax kwargs)
        (default false (kw_scientific kwargs))
        (default None (kw_min_max_scale kwargs))
  | Some _ => raise TypeError   (* unexpected keyword argument *)
  end.

(** [heatmap] returns the renderer's axes, or falls off its end and
    returns [None]. *)
Definition heatmap (d : gmap (Z * Z) Qc) (steps : Z) (kwargs : Kwargs)
  : M (option AxId) :=
  (* try: style = kwargs['style'] / except KeyError: style = "triangular" *)
  let style := match kw_style kwargs with
               | Some style => style
               | None => Some "triangular"%string
               end in
  (* finally: del kwargs['style'] ... *)
  kwargs <- lift (del_style kwargs) ;;
  (* ... if style is None: style = "triangular" *)
  let style := match style with
               | None => "triangular"%string
               | Some style => style
               end in
  let style := lower style in
  if startswith style "tri" then
    ax <- call_heatmap_triangular d steps kwargs ;; ret (Some ax)
  else if startswith style "hex" then
    ax <- call_heatmap_hexagonal d steps kwargs ;; ret (Some ax)
  else ret None.

(** ** Convenience functions *)

(** The loop of [plot_heatmap] that fills [d]. *)
Fixpoint sample (func : list Qc -> Qc) (pts : list (Z * Z * Z))
    (d : gmap (Z * Z) Qc) : result (gmap (Z * Z) Qc) :=
  match pts with
  | [] => Ok d
  | (x1, x2, x3) :: pts' =>
      rbind (normalize [x1; x2; x3]) (fun p =>
        sample func pts' (<[(x1, x2) := func p]> d))
  end.

Definition plot_heatmap (func : list Qc -> Qc) (steps : Z) (boundary : bool)
    (cmap_name : option string) (ax : option AxId) (style : option string)
  : M (option AxId) :=
  d <- lift (sample func (simplex_points steps boundary) ∅) ;;
  ax <- heatmap d steps
          (mkKwargs (Some style) cmap_name None ax None None) ;;
  ret ax.

(** ** Boundary, gridlines, sizing and curve plotting

    These functions put lines and axis limits on an axes.  What they issue
    is kept, oldest first, beside pyplot's state. *)

(** Keyword arguments handed on to matplotlib ([color], [linewidth], ...). *)
Inductive KwVal : Type :=
| KwNum (q : Qc)
| KwStr (s : string).

Definition LineKwargs : Type := list (string * KwVal).

Inductive Artist : Type :=
| SetYlim (lo hi : R)                                  (* ax.set_ylim((lo, hi)) *)
| SetXlim (lo hi : R)                                  (* ax.set_xlim((lo, hi)) *)
| Line2D (xdata ydata : R * R) (kwargs : LineKwargs)   (* ax.add_line(Line2D(...)) *)
| PlotCurve (xs ys : list R) (kwargs : LineKwargs)     (* ax.plot(xs, ys, ...) on sequences *)
| PlotPoint (x y : R) (kwargs : LineKwargs).           (* ax.plot(x, y, ...) on numbers *)

Record Canvas : Type := mkCanvas {
  pyplot : World;
  artists : list (AxId * Artist)
}.

Definition L (A : Type) : Type := Canvas -> result A * Canvas.

Definition lret {A} (a : A) : L A := fun c => (Ok a, c).
Definition llift {A} (r : result A) : L A := fun c => (r, c).
Definition lbind {A B} (m : L A) (k : A -> L B) : L B :=
  fun c => match m c with
           | (Ok a, c') => k a c'
           | (Raise e, c') => (Raise e, c')
           end.

Notation "x <~ c1 ;~ c2" := (lbind c1 (fun x => c2))
  (at level 100, c1 at next level, right associativity).
Notation "c1 ;~ c2" := (lbind c1 (fun _ => c2))
  (at level 100, right associativity).

(** A pyplot computation, run on the pyplot part of the canvas. *)
Definition in_pyplot {A} (m : M A) : L A :=
  fun c => let '(r, w) := m (pyplot c) in (r, mkCanvas w (artists c)).

Definition add_artist (ax : AxId) (a : Artist) : L unit :=
  fun c => (Ok tt, mkCanvas (pyplot c) (artists c ++ [(ax, a)])).

Fixpoint lfor_each {A} (xs : list A) (body : A -> L unit) : L unit :=
  match xs with
  | [] => lret tt
  | x :: xs' => body x ;~ lfor_each xs' body
  end.

(** A trajectory argument is a sequence of points or one point. *)
Inductive Points : Type :=
| Point (p : R * R * R)
| Sequence (s : list (R * R * R)).

(** What [xs, ys = project(t)] binds: two sequences, or two numbers. *)
Inductive Projected : Type :=
| XsYs (xs ys : list R)
| XY (x y : R).

(** [project(s)]: on a sequence, [unzip(map(project_point, s))]; on a
    single point the element-wise call raises [TypeError], and the handler
    projects the point itself. *)
Definition project (s : Points) : result Projected :=
  match s with
  | Sequence s =>
      rbind (unzip (map project_point s)) (fun xy => Ok (XsYs (fst xy) (snd xy)))
  | Point p => Ok (XY (fst (project_point p)) (snd (project_point p)))
  end.

Definition resize_drawing_canvas (ax : AxId) (scale : R) : L unit :=
  add_artist ax (SetYlim (-0.05 * scale) (0.90 * scale))%R ;~
  add_artist ax (SetXlim (-0.05 * scale) (1.05 * scale))%R.

Definition draw_line (ax : AxId) (p1 p2 : R * R) (kwargs : LineKwargs)
  : L unit :=
  add_artist ax (Line2D (fst p1, fst p2) (snd p1, snd p2) kwargs).

Definition draw_horizontal_line (ax : AxId) (steps i : R)
    (kwargs : LineKwargs) : L unit :=
  let p1 := project_point (0, steps - i, i)%R in
  let p2 := project_point (steps - i, 0, i)%R in
  draw_line ax p1 p2 kwargs.

Definition draw_left_parallel_line (ax : AxId) (steps i : R)
    (kwargs : LineKwargs) : L unit :=
  let p1 := project_point (0, i, steps - i)%R in
  let p2 := project_point (steps - i, i, 0)%R in
  draw_line ax p1 p2 kwargs.

Definition draw_right_parallel_line (ax : AxId) (steps i : R)
    (kwargs : LineKwargs) : L unit :=
  let p1 := project_point (i, steps - i, 0)%R in
  let p2 := project_point (i, 0, steps - i)%R in
  draw_line ax p1 p2 kwargs.

Definition draw_boundary (scale : R) (ax : option AxId) (kwargs : LineKwargs)
  : L AxId :=
  ax <~ in_pyplot (resolve_ax ax) ;~
  resize_drawing_canvas ax scale ;~
  draw_horizontal_line ax scale 0 kwargs ;~
  draw_left_parallel_line ax scale 0 kwargs ;~
  draw_right_parallel_line ax scale 0 kwargs ;~
  lret ax.

Definition draw_gridlines (steps : Z) (ax : option AxId)
    (kwargs : LineKwargs) : L AxId :=
  ax <~ in_pyplot (resolve_ax ax) ;~
  resize_drawing_canvas ax (IZR steps) ;~
  (* Parallel to horizontal axis *)
  lfor_each (range 1 steps) (fun i =>
    draw_horizontal_line ax (IZR steps) (IZR i) kwargs) ;~
  (* Parallel to left and right axes *)
  lfor_each (range 1 (steps + 1)) (fun i =>
    draw_left_parallel_line ax (IZR steps) (IZR i) kwargs ;~
    draw_right_parallel_line ax (IZR steps) (IZR i) kwargs) ;~
  lret ax.

(** [ax.plot(xs, ys, **kwargs)] *)
Definition plotted (xy : Projected) (kwargs : LineKwargs) : Artist :=
  match xy with
  | XsYs xs ys => PlotCurve xs ys kwargs
  | XY x y => PlotPoint x y kwargs
  end.

Definition plot (t : Points) (steps : R) (ax : option AxId)
    (kwargs : LineKwargs) : L AxId :=
  ax <~ in_pyplot (resolve_ax ax) ;~
  xy <~ llift (project t) ;~
  add_artist ax (plotted xy kwargs) ;~
  lret ax.

Definition plot_multiple (trajectories : list Points) (linewidth : Qc)
    (ax : option AxId) : L AxId :=
  ax <~ in_pyplot (resolve_ax ax) ;~
  lfor_each trajectories (fun t =>
    plot t 1 (Some ax) [("linewidth"%string, KwNum linewidth)] ;~ lret tt) ;~
  draw_boundary 1 (Some ax) [] ;~
  lret ax.

(** ** Notions used to state what the renderers draw *)

(** The axes a [pyplot.fill] issued in world [w] lands on. *)
Definition gca_of (w : World) : AxId :=
  match current w with
  | Some ax => ax
  | None => next_ax w
  end.

(** From [w] to [w'] pyplot's axes are left as they were and every new
    primitive is on [ax]. *)
Definition only_on (ax : AxId) (w w' : World) : Prop :=
  next_ax w' = next_ax w /\ current w' = current w /\
  exists ps, drawn w' = drawn w ++ ps /\ Forall (fun p => fst p = ax) ps.

(** The alt triangle at [(i, j)] as the description of the triangular
    tessellation has it: filled, on [target], with the color of the mean
    of the three neighbouring values when all three are in the map, and
    absent otherwise. *)
Definition alt_fill (d : gmap (Z * Z) Qc) (a b : Qc) (cmap : Colormap)
    (target : AxId) (i j : Z) : list (AxId * Prim) :=
  match d !! (i, j), d !! (i, j + 1), d !! (i + 1, j) with
  | Some d00, Some d01, Some d10 =>
      let color := colormapper ((d00 + d01 + d10) / float 3)%Qc a b (Some cmap) in
      [ (target,
         Fill (fst (List.split (triangle_coordinates i j true)))
              (snd (List.split (triangle_coordinates i j true)))
              color color) ]
  | _, _, _ => []
  end.

(** The point [(x, y)] is inside the range that
    [resize_drawing_canvas ax scale] makes visible. *)
Definition visible (scale x y : R) : Prop :=
  (-0.05 * scale <= x <= 1.05 * scale /\ -0.05 * scale <= y <= 0.90 * scale)%R.

(** The line from [p1] to [p2] as [draw_line] hands it to the axes. *)
Definition line_between (ax : AxId) (p1 p2 : R * R) (kwargs : LineKwargs)
  : AxId * Artist :=
  (ax, Line2D (fst p1, fst p2) (snd p1, snd p2) kwargs).




Definition selects_renderer (style : option string) : Prop :=
  match style with
  | None => True
  | Some s => startswith (lower s) "tri" = true \/
              startswith (lower s) "hex" = true
  end.

(** All alt triangles of a diagram, in the order of the smoothing loop. *)
Definition alt_fills (d : gmap (Z * Z) Qc) (steps : Z) (boundary : bool)
    (a b : Qc) (cmap : Colormap) (target : AxId) : list (AxId * Prim) :=
  let offset := if negb boundary then 1 else 0 in
  flat_map (fun i =>
    flat_map (fun j => alt_fill d a b cmap target i j)
             (range offset (steps - i - offset)))
    (range offset (steps + 1 - offset)).

(** The palette name of a call is one that [resolve_cmap] accepts. *)
Definition palette_known (cmap_name : option string) : Prop :=
  match cmap_name with
  | None | Some EmptyString => True
  | Some name => get_cmap name <> None
  end.

(** ** Properties of the lattice enumeration *)

Lemma in_range lo hi k : In k (range lo hi) <-> lo <= k < hi.
Proof.
  unfold range. rewrite in_map_iff. split.
  - intros (n & <- & Hn). apply in_seq in Hn. lia.
  - intros Hk. exists (Z.to_nat (k - lo)). split; [lia|].
    apply in_seq. lia.
Qed.

Lemma range_sorted lo hi : StronglySorted Z.lt (range lo hi).
Proof.
  unfold range. generalize (Z.to_nat (hi - lo)) as n. intros n.
  generalize 0%nat as s. induction n as [|n IH]; intros s; simpl.
  - constructor.
  - constructor; [apply IH|].
    apply List.Forall_forall. intros k Hk. apply in_map_iff in Hk.
    destruct Hk as (m & <- & Hm). apply in_seq in Hm. lia.
Qed.

Lemma simplex_points_in steps boundary x1 x2 x3 :
  In (x1, x2, x3) (simplex_points steps boundary) <->
  (let start := if boundary then 0 else 1 in
   start <= x1 /\ start <= x2 /\ start <= x3 /\ x1 + x2 + x3 = steps).
Proof.
  unfold simplex_points. rewrite in_flat_map. split.
  - intros (i & Hi & Hin). apply in_map_iff in Hin.
    destruct Hin as (j & Heq & Hj). apply in_range in Hi, Hj.
    injection Heq as <- <- <-. destruct boundary; cbv zeta; lia.
  - cbv zeta. intros (H1 & H2 & H3 & Hs). exists x1. split.
    + apply in_range. destruct boundary; lia.
    + apply in_map_iff. exists x2. split.
      * f_equal. lia.
      * apply in_range. destruct boundary; lia.
Qed.

Lemma flat_map_sorted {A B} (RA : A -> A -> Prop) (RB : B -> B -> Prop)
      (f : A -> list B) (l : list A) :
  StronglySorted RA l ->
  (forall a, In a l -> StronglySorted RB (f a)) ->
  (forall a a' b b', RA a a' -> In b (f a) -> In b' (f a') -> RB b b') ->
  StronglySorted RB (flat_map f l).
Proof.
  intros Hl Hin Hcross. induction Hl as [|a l Hl IH Ha]; simpl.
  - constructor.
  - assert (Hrest : StronglySorted RB (flat_map f l)).
    { apply IH. intros a0 Ha0. apply Hin. now right. }
    assert (Hall : forall b, In b (f a) ->
                     Forall (RB b) (flat_map f l)).
    { intros b Hb. apply List.Forall_forall. intros b' Hb'.
      apply in_flat_map in Hb'. destruct Hb' as (a' & Ha' & Hb').
      rewrite List.Forall_forall in Ha. eapply Hcross; eauto. }
    specialize (Hin a (or_introl eq_refl)).
    induction Hin as [|b bs Hbs IHbs Hb]; simpl; [exact Hrest|].
    constructor.
    + apply IHbs. intros b' Hb'. apply Hall. now right.
    + apply List.Forall_app. split; [exact Hb|]. apply Hall. now left.
Qed.

Lemma map_sorted {A B} (RA : A -> A -> Prop) (RB : B -> B -> Prop)
      (f : A -> B) (l : list A) :
  (forall a a', RA a a' -> RB (f a) (f a')) ->
  StronglySorted RA l -> StronglySorted RB (map f l).
Proof.
  intros Hf Hl. induction Hl as [|a l Hl IH Ha]; simpl; constructor; auto.
  apply List.Forall_map. eapply List.Forall_impl; [|exact Ha]. intros; now apply Hf.
Qed.

Lemma simplex_points_sorted steps boundary :
  StronglySorted loop_lt (simplex_points steps boundary).
Proof.
  unfold simplex_points. cbv zeta.
  apply flat_map_sorted with (RA := Z.lt).
  - apply range_sorted.
  - intros x1 _. apply map_sorted with (RA := Z.lt); [|apply range_sorted].
    intros j j' Hj. simpl. lia.
  - intros i i' [[b1 b2] b3] [[c1 c2] c3] Hlt Hb Hc.
    apply in_map_iff in Hb, Hc.
    destruct Hb as (j & Hb & _), Hc as (j' & Hc & _).
    injection Hb as <- <- <-. injection Hc as <- <- <-. simpl. lia.
Qed.

(** C3. For a non-negative [steps], [simplex_points steps true] enumerates
    exactly the integer triples with non-negative components that sum to
    [steps], and [simplex_points steps false] exactly those with all three
    components at least 1; both come in nested-loop order (first component
    ascending, then second component ascending, hence without repetition).
    At [steps = 3] these are the ten listed triples, respectively
    [(1,1,1)] alone. *)
Theorem simplex_points_spec (steps : Z) (Hsteps : 0 <= steps) :
  (forall i1 i2 i3,
      In (i1, i2, i3) (simplex_points steps true) <->
      0 <= i1 /\ 0 <= i2 /\ 0 <= i3 /\ i1 + i2 + i3 = steps) /\
  StronglySorted loop_lt (simplex_points steps true) /\
  (forall i1 i2 i3,
      In (i1, i2, i3) (simplex_points steps false) <->
      1 <= i1 /\ 1 <= i2 /\ 1 <= i3 /\ i1 + i2 + i3 = steps) /\
  StronglySorted loop_lt (simplex_points steps false) /\
  simplex_points 3 true =
    [(0,0,3); (0,1,2); (0,2,1); (0,3,0); (1,0,2);
     (1,1,1); (1,2,0); (2,0,1); (2,1,0); (3,0,0)] /\
  simplex_points 3 false = [(1,1,1)].
Proof.
  split; [|split; [|split; [|split; [|split]]]].
  - intros i1 i2 i3. apply (simplex_points_in steps true).
  - apply simplex_points_sorted.
  - intros i1 i2 i3. apply (simplex_points_in steps false).
  - apply simplex_points_sorted.
  - reflexivity.
  - reflexivity.
Qed.


(** ** Double precision: conversions, zero and halving *)

(** Conversion of integers below [2^53], all of which are doubles. *)







Lemma float_of_int_0 : Binary64.float_of_int 0 = Ok 0%float.
Proof. reflexivity. Qed.


(** Zero is a unit of addition up to [==]. *)





(** Rounding a non-negative mantissa, and so halving, never gives a NaN. *)











(** ** Properties of the projection *)


(** ** Properties of the color mapping *)







(** ** Properties of the normalisation in [plot_heatmap] *)

Lemma float_add (x y : Z) : float (x + y) = (float x + float y)%Qc.
Proof.
  unfold float. apply Qc_is_canon. unfold Qcplus. cbn [this Q2Qc].
  rewrite !Qred_correct, inject_Z_plus. reflexivity.
Qed.







(** ** Properties of the style dispatch *)

Lemma heatmap_dispatch d steps kwargs style kwargs' w :
  kw_style kwargs = Some style ->
  del_style kwargs = Ok kwargs' ->
  heatmap d steps kwargs w =
  (let style := lower (default "triangular"%string style) in
   if startswith style "tri" then
     (ax <- call_heatmap_triangular d steps kwargs' ;; ret (Some ax)) w
   else if startswith style "hex" then
     (ax <- call_heatmap_hexagonal d steps kwargs' ;; ret (Some ax)) w
   else (Ok None, w)).
Proof.
  intros Hs Hd. unfold heatmap. rewrite Hs, Hd. unfold bind, lift. cbv zeta.
  destruct style as [style|]; simpl; [|reflexivity].
  destruct (startswith (lower style) "tri"); [reflexivity|].
  destruct (startswith (lower style) "hex"); reflexivity.
Qed.

(** [style=None] selects the triangular renderer. *)
Lemma heatmap_style_None d steps cmap_name boundary ax scientific w :
  heatmap d steps (mkKwargs (Some None) cmap_name boundary ax scientific None) w =
  (ax <- heatmap_triangular d steps cmap_name (default true boundary) ax
           (default false scientific) ;; ret (Some ax)) w.
Proof. reflexivity. Qed.

(** A style whose lowercase form starts with "tri" selects the triangular
    renderer. *)
Lemma heatmap_style_tri d steps style cmap_name boundary ax scientific w :
  startswith (lower style) "tri" = true ->
  heatmap d steps
    (mkKwargs (Some (Some style)) cmap_name boundary ax scientific None) w =
  (ax <- heatmap_triangular d steps cmap_name (default true boundary) ax
           (default false scientific) ;; ret (Some ax)) w.
Proof.
  intros Htri. erewrite heatmap_dispatch by reflexivity.
  cbv zeta. simpl default. now rewrite Htri.
Qed.

(** A style whose lowercase form starts with "hex" selects the hexagonal
    renderer. *)
Lemma heatmap_style_hex d steps style cmap_name boundary ax scientific mms w :
  startswith (lower style) "hex" = true ->
  heatmap d steps
    (mkKwargs (Some (Some style)) cmap_name boundary ax scientific mms) w =
  (ax <- heatmap_hexagonal d steps cmap_name (default true boundary) ax
           (default false scientific) (default None mms) ;; ret (Some ax)) w.
Proof.
  intros Hhex. erewrite heatmap_dispatch by reflexivity.
  cbv zeta. simpl default.
  assert (Htri : startswith (lower style) "tri" = false).
  { unfold startswith in *. destruct (lower style) as [|c s']; [discriminate|].
    cbn [String.prefix] in *.
    destruct (Ascii.ascii_dec "t" c) as [<-|Hc]; [|reflexivity].
    discriminate Hhex. }
  now rewrite Htri, Hhex.
Qed.

Example heatmap_HEX d steps w :
  heatmap d steps (mkKwargs (Some (Some "HEX"%string)) None None None None None) w =
  (ax <- heatmap_hexagonal d steps None true None false None ;; ret (Some ax)) w.
Proof. now apply heatmap_style_hex. Qed.

(** C1, at the call the code gets wrong.  When the [style] keyword is
    omitted, [heatmap] does not reach the triangular renderer: the
    [del kwargs['style']] of its [finally] clause raises [KeyError], and
    nothing is drawn. *)
Theorem heatmap_style_omitted_raises d steps cmap_name boundary ax scientific
        min_max_scale w :
  heatmap d steps
    (mkKwargs None cmap_name boundary ax scientific min_max_scale) w =
  (Raise KeyError, w).
Proof. reflexivity. Qed.

(** C9. A style whose lowercase form starts with neither "tri" nor "hex"
    makes [heatmap] return [None] without drawing and without raising. *)
Theorem heatmap_unknown_style_noop d steps kwargs style w :
  kw_style kwargs = Some (Some style) ->
  startswith (lower style) "tri" = false ->
  startswith (lower style) "hex" = false ->
  heatmap d steps kwargs w = (Ok None, w).
Proof.
  intros Hs Htri Hhex.
  assert (Hd : exists kwargs', del_style kwargs = Ok kwargs').
  { unfold del_style. rewrite Hs. eauto. }
  destruct Hd as (kwargs' & Hd).
  rewrite (heatmap_dispatch _ _ _ _ _ _ Hs Hd).
  cbv zeta. simpl default. now rewrite Htri, Hhex.
Qed.

(** ** Properties of the triangular smoothing *)

Lemma unzip_split {A B} (l : list (A * B)) :
  l <> [] -> unzip l = Ok (fst (List.split l), snd (List.split l)).
Proof.
  intros Hl. unfold unzip. destruct l as [|p l]; [contradiction|].
  now destruct (List.split (p :: l)).
Qed.

Lemma pyplot_fill_run x y fc ec w :
  exists w',
    pyplot_fill x y fc ec w = (Ok tt, w') /\
    drawn w' = drawn w ++ [(gca_of w, Fill x y fc ec)] /\
    gca_of w' = gca_of w.
Proof.
  unfold pyplot_fill, bind, pyplot_gca, pyplot_subplot, ax_fill, issue, gca_of.
  destruct (current w) as [ax|] eqn:E; simpl;
    (eexists; split; [reflexivity|]; simpl; rewrite ?E; now split).
Qed.

(** One pass through the [try] block: the alt triangle is issued when the
    three neighbours are in the map, and a [KeyError] is swallowed
    otherwise; either way the step returns normally. *)
Lemma smoothing_step_run d a b cmap i j w :
  exists w',
    smoothing_step d a b cmap i j w = (Ok tt, w') /\
    drawn w' = drawn w ++ alt_fill d a b cmap (gca_of w) i j /\
    gca_of w' = gca_of w.
Proof.
  unfold smoothing_step, except_KeyError_pass, alt_fill, bind, lift, getitem.
  destruct (d !! (i, j)) as [d00|];
    [|exists w; now rewrite app_nil_r].
  destruct (d !! (i, j + 1)) as [d01|];
    [|exists w; now rewrite app_nil_r].
  destruct (d !! (i + 1, j)) as [d10|];
    [|exists w; now rewrite app_nil_r].
  rewrite unzip_split by discriminate. cbv zeta.
  set (color := colormapper _ a b (Some cmap)).
  destruct (pyplot_fill_run
              (fst (List.split (triangle_coordinates i j true)))
              (snd (List.split (triangle_coordinates i j true)))
              color color w) as (w' & Hrun & Hdrawn & Hgca).
  rewrite Hrun. now exists w'.
Qed.

Lemma for_each_emits {A} (body : A -> M unit)
      (f : AxId -> A -> list (AxId * Prim)) :
  (forall x w, exists w',
      body x w = (Ok tt, w') /\
      drawn w' = drawn w ++ f (gca_of w) x /\ gca_of w' = gca_of w) ->
  forall l w, exists w',
      for_each l body w = (Ok tt, w') /\
      drawn w' = drawn w ++ flat_map (f (gca_of w)) l /\ gca_of w' = gca_of w.
Proof.
  intros Hbody l. induction l as [|x l IH]; intros w.
  - exists w. simpl. now rewrite app_nil_r.
  - destruct (Hbody x w) as (w1 & Hx & Hd1 & Hg1).
    destruct (IH w1) as (w2 & Hl & Hd2 & Hg2).
    exists w2. cbn [for_each flat_map]. unfold bind. rewrite Hx, Hl.
    split; [reflexivity|]. split; [|congruence].
    rewrite Hd2, Hd1, Hg1. now rewrite <- app_assoc.
Qed.

Lemma smoothing_loop_run d steps boundary a b cmap w :
  exists w',
    smoothing_loop d steps boundary a b cmap w = (Ok tt, w') /\
    drawn w' = drawn w ++ alt_fills d steps boundary a b cmap (gca_of w) /\
    gca_of w' = gca_of w.
Proof.
  unfold smoothing_loop, alt_fills. cbv zeta.
  apply (for_each_emits _ (fun tgt i =>
           flat_map (fun j => alt_fill d a b cmap tgt i j) _)).
  intros i w1.
  apply (for_each_emits _ (fun tgt j => alt_fill d a b cmap tgt i j)).
  intros j w2. apply smoothing_step_run.
Qed.



Lemma in_alt_fill d a b cmap tgt i j p :
  In p (alt_fill d a b cmap tgt i j) ->
  exists d00 d01 d10,
    d !! (i, j) = Some d00 /\ d !! (i, j + 1) = Some d01 /\
    d !! (i + 1, j) = Some d10 /\
    p = (tgt,
         Fill (fst (List.split (triangle_coordinates i j true)))
              (snd (List.split (triangle_coordinates i j true)))
              (colormapper ((d00 + d01 + d10) / float 3)%Qc a b (Some cmap))
              (colormapper ((d00 + d01 + d10) / float 3)%Qc a b (Some cmap))).
Proof.
  unfold alt_fill.
  destruct (d !! (i, j)) as [d00|]; [|intros []].
  destruct (d !! (i, j + 1)) as [d01|]; [|intros []].
  destruct (d !! (i + 1, j)) as [d10|]; [|intros []].
  intros [<-|[]]. now exists d00, d01, d10.
Qed.


(** ** Where the renderers draw *)

Lemma only_on_refl ax w : only_on ax w w.
Proof.
  repeat split. exists []. split; [now rewrite app_nil_r|constructor].
Qed.

Lemma only_on_trans ax w1 w2 w3 :
  only_on ax w1 w2 -> only_on ax w2 w3 -> only_on ax w1 w3.
Proof.
  intros (Hn1 & Hc1 & ps1 & Hd1 & Hf1) (Hn2 & Hc2 & ps2 & Hd2 & Hf2).
  split; [congruence|]. split; [congruence|].
  exists (ps1 ++ ps2). split.
  - now rewrite Hd2, Hd1, <- app_assoc.
  - apply List.Forall_app. now split.
Qed.

Lemma issue_only_on ax p w : only_on ax w (snd (issue ax p w)).
Proof.
  repeat split. exists [(ax, p)]. split; [reflexivity|].
  constructor; [reflexivity|constructor].
Qed.

Lemma for_each_only_on {A} ax (body : A -> M unit) :
  (forall x w, only_on ax w (snd (body x w))) ->
  forall l w, only_on ax w (snd (for_each l body w)).
Proof.
  intros Hbody l. induction l as [|x l IH]; intros w.
  - apply only_on_refl.
  - cbn [for_each]. unfold bind. specialize (Hbody x w).
    destruct (body x w) as [[[]|e] w1]; [|exact Hbody].
    eapply only_on_trans; [exact Hbody|apply IH].
Qed.

Lemma fill_hexagon_only_on d steps a b cmap ax kv w :
  only_on ax w (snd (fill_hexagon d steps a b cmap ax kv w)).
Proof.
  destruct kv as [[i j] v]. unfold fill_hexagon, bind, lift, ret.
  destruct (hex_coordinates i j steps) as [vertices|]; [|apply only_on_refl].
  destruct (unzip vertices) as [[x y]|e]; [|apply only_on_refl].
  destruct (getitem d (i, j)) as [dij|e]; [|apply only_on_refl].
  apply issue_only_on.
Qed.

Lemma fill_triangle_run d a b cmap ax k v w :
  d !! k = Some v ->
  exists w', fill_triangle d a b cmap ax (k, v) w = (Ok tt, w') /\
             only_on ax w w'.
Proof.
  intros Hk. destruct k as [i j]. unfold fill_triangle, bind, lift, getitem.
  rewrite unzip_split by discriminate. rewrite Hk. cbv zeta.
  eexists. split; [reflexivity|]. apply issue_only_on.
Qed.

Lemma data_triangles_run d a b cmap ax l w :
  (forall k v, In (k, v) l -> d !! k = Some v) ->
  exists w', for_each l (fill_triangle d a b cmap ax) w = (Ok tt, w') /\
             only_on ax w w'.
Proof.
  revert w. induction l as [|[k v] l IH]; intros w Hl.
  - exists w. split; [reflexivity|apply only_on_refl].
  - destruct (fill_triangle_run d a b cmap ax k v w) as (w1 & Hrun & H1).
    { apply Hl. now left. }
    destruct (IH w1) as (w2 & Hrest & H2).
    { intros k' v' Hin. apply Hl. now right. }
    exists w2. cbn [for_each]. unfold bind. rewrite Hrun. split; [exact Hrest|].
    now apply only_on_trans with w1.
Qed.

Lemma items_lookup (d : gmap (Z * Z) Qc) k v : In (k, v) (items d) -> d !! k = Some v.
Proof.
  unfold items. rewrite <- list_elem_of_In. apply elem_of_map_to_list.
Qed.

Lemma resolve_ax_run ax w :
  exists ax' w1,
    resolve_ax ax w = (Ok ax', w1) /\ drawn w1 = drawn w /\
    (forall ax0, ax = Some ax0 -> ax' = ax0 /\ w1 = w) /\
    (ax = None -> gca_of w1 = ax').
Proof.
  destruct ax as [ax0|]; simpl.
  - exists ax0, w. repeat split; congruence.
  - unfold pyplot_subplot. eexists _, _. split; [reflexivity|].
    repeat split; try discriminate.
Qed.

Lemma resolve_cmap_world cmap_name w : snd (resolve_cmap cmap_name w) = w.
Proof.
  unfold resolve_cmap, pyplot_get_cmap.
  destruct cmap_name as [[|c name]|]; try reflexivity.
  now destruct (get_cmap (String c name)).
Qed.

Lemma resolve_cmap_known cmap_name :
  palette_known cmap_name ->
  exists cmap, forall w, resolve_cmap cmap_name w = (Ok cmap, w).
Proof.
  unfold palette_known, resolve_cmap, pyplot_get_cmap.
  destruct cmap_name as [[|c name]|]; try (now exists DEFAULT_COLOR_MAP).
  destruct (get_cmap (String c name)) as [cmap|]; [|congruence].
  intros _. now exists cmap.
Qed.

(** What a run of the triangular renderer amounts to: the data triangles
    go to the renderer's axes, the alt triangles to pyplot's current axes,
    the colorbar to the renderer's axes, which is returned. *)
Lemma heatmap_triangular_run d steps cmap_name boundary ax scientific w
      ax' w1 cmap a b :
  resolve_ax ax w = (Ok ax', w1) ->
  resolve_cmap cmap_name w1 = (Ok cmap, w1) ->
  py_min (values d) = Ok a ->
  py_max (values d) = Ok b ->
  exists w2 w',
    only_on ax' w1 w2 /\
    heatmap_triangular d steps cmap_name boundary ax scientific w =
      (Ok ax', w') /\
    drawn w' =
      drawn w2 ++ alt_fills d steps boundary a b cmap (gca_of w1)
               ++ [(ax', Colorbar cmap a b "%.3f" None scientific)].
Proof.
  intros Hax Hcmap Hmin Hmax.
  destruct (data_triangles_run d a b cmap ax' (items d) w1) as (w2 & Hdata & H2).
  { intros k v. apply items_lookup. }
  destruct (smoothing_loop_run d steps boundary a b cmap w2)
    as (w3 & Hsmooth & Hd3 & _).
  assert (Hg : gca_of w2 = gca_of w1).
  { destruct H2 as (Hn & Hc & _). unfold gca_of. now rewrite Hn, Hc. }
  exists w2. eexists. split; [exact H2|].
  unfold heatmap_triangular, bind, lift.
  rewrite Hax, Hcmap, Hmin, Hmax, Hdata, Hsmooth. simpl.
  split; [reflexivity|]. simpl. rewrite Hd3, Hg. now rewrite <- app_assoc.
Qed.

Lemma py_min_values (d : gmap (Z * Z) Qc) k v :
  d !! k = Some v -> exists a, py_min (values d) = Ok a.
Proof.
  intros Hk. unfold values. destruct (map_to_list d) as [|kv l] eqn:E.
  - apply map_to_list_empty_iff in E. subst d. now rewrite lookup_empty in Hk.
  - simpl. eauto.
Qed.

Lemma py_max_values (d : gmap (Z * Z) Qc) k v :
  d !! k = Some v -> exists b, py_max (values d) = Ok b.
Proof.
  intros Hk. unfold values. destruct (map_to_list d) as [|kv l] eqn:E.
  - apply map_to_list_empty_iff in E. subst d. now rewrite lookup_empty in Hk.
  - simpl. eauto.
Qed.

(** The hexagonal renderer draws on its axes only, whether it completes
    or raises, and returns that axes. *)
Lemma heatmap_hexagonal_only_on_ax d steps cmap_name boundary ax scientific
      min_max_scale w :
  exists ax' w1,
    resolve_ax ax w = (Ok ax', w1) /\ drawn w1 = drawn w /\
    only_on ax' w1
      (snd (heatmap_hexagonal d steps cmap_name boundary ax scientific
              min_max_scale w)) /\
    (forall r,
        fst (heatmap_hexagonal d steps cmap_name boundary ax scientific
               min_max_scale w) = Ok r -> r = ax').
Proof.
  destruct (resolve_ax_run ax w) as (ax' & w1 & Hax & Hd1 & _).
  exists ax', w1. split; [exact Hax|]. split; [exact Hd1|].
  unfold heatmap_hexagonal, bind. rewrite Hax.
  pose proof (resolve_cmap_world cmap_name w1) as Hw.
  destruct (resolve_cmap cmap_name w1) as [[cmap|e] w1']; simpl in Hw; subst w1'.
  2:{ split; [apply only_on_refl|discriminate]. }
  assert (Hloop : forall a b,
    only_on ax' w1
      (snd (match for_each (items d) (fill_hexagon d steps a b cmap ax') w1 with
            | (Ok _, w') =>
                match issue ax' (Colorbar cmap a b "%.4f" (Some 7) scientific) w' with
                | (Ok _, w'') => ret ax' w''
                | (Raise e, w'') => (Raise e, w'')
                end
            | (Raise e, w') => (Raise e, w')
            end)) /\
    forall r,
      fst (match for_each (items d) (fill_hexagon d steps a b cmap ax') w1 with
           | (Ok _, w') =>
               match issue ax' (Colorbar cmap a b "%.4f" (Some 7) scientific) w' with
               | (Ok _, w'') => ret ax' w''
               | (Raise e, w'') => (Raise e, w'')
               end
           | (Raise e, w') => (Raise e, w')
           end) = Ok r -> r = ax').
  { intros a b.
    pose proof (for_each_only_on ax' (fill_hexagon d steps a b cmap ax')
                  (fill_hexagon_only_on d steps a b cmap ax') (items d) w1) as Hl.
    destruct (for_each (items d) (fill_hexagon d steps a b cmap ax') w1)
      as [[[]|e] w2]; simpl in *.
    - split; [|congruence].
      eapply only_on_trans; [exact Hl|].
      apply (issue_only_on ax' (Colorbar cmap a b "%.4f" (Some 7) scientific) w2).
    - split; [exact Hl|discriminate]. }
  destruct min_max_scale as [[lo hi]|]; simpl.
  - apply Hloop.
  - unfold lift, bind, ret.
    destruct (py_min (values d)) as [a|e]; [|split; [apply only_on_refl|discriminate]].
    destruct (py_max (values d)) as [b|e]; [|split; [apply only_on_refl|discriminate]].
    apply Hloop.
Qed.

(** When the triangular renderer creates its axes itself, that axes is
    pyplot's current one and receives the alt triangles as well. *)
Lemma heatmap_triangular_own_axes d steps cmap_name boundary scientific w
      k v :
  palette_known cmap_name ->
  d !! k = Some v ->
  exists ax' w' ps,
    heatmap_triangular d steps cmap_name boundary None scientific w =
      (Ok ax', w') /\
    drawn w' = drawn w ++ ps /\ Forall (fun p => fst p = ax') ps.
Proof.
  intros Hpal Hk.
  destruct (resolve_ax_run None w) as (ax' & w1 & Hax & Hd1 & _ & Hg).
  destruct (resolve_cmap_known cmap_name Hpal) as (cmap & Hcmap).
  destruct (py_min_values d k v Hk) as (a & Hmin).
  destruct (py_max_values d k v Hk) as (b & Hmax).
  destruct (heatmap_triangular_run d steps cmap_name boundary None scientific
              w ax' w1 cmap a b Hax (Hcmap w1) Hmin Hmax)
    as (w2 & w' & (_ & _ & ps & Hd2 & Hps) & Hrun & Hd').
  exists ax', w'. eexists. split; [exact Hrun|].
  rewrite Hd', Hd2, Hd1, <- app_assoc. split; [reflexivity|].
  apply List.Forall_app. split; [exact Hps|].
  apply List.Forall_app. split.
  - rewrite (Hg eq_refl). apply List.Forall_forall. intros p Hp.
    unfold alt_fills in Hp. cbv zeta in Hp.
    apply in_flat_map in Hp. destruct Hp as (i & _ & Hp).
    apply in_flat_map in Hp. destruct Hp as (j & _ & Hp).
    apply in_alt_fill in Hp. destruct Hp as (? & ? & ? & _ & _ & _ & ->).
    reflexivity.
  - constructor; [reflexivity|constructor].
Qed.

(** C2, at a call the code gets wrong.  The value map has the three keys
    [(0,0)], [(0,1)], [(1,0)], the caller supplies axes 0, and pyplot's
    current axes is axes 1.  The renderer returns axes 0, but the alt
    triangle at [(0,0)], issued through [pyplot.fill], is on axes 1. *)
Theorem heatmap_triangular_alt_fill_off_axes (v00 v01 v10 : Qc) :
  let d : gmap (Z * Z) Qc :=
    <[(0, 0) := v00]> (<[(0, 1) := v01]> (<[(1, 0) := v10]> ∅)) in
  let w := mkWorld 2%nat (Some 1%nat) [] in
  exists w' a b,
    heatmap_triangular d 1 None true (Some 0%nat) false w = (Ok 0%nat, w') /\
    py_min (values d) = Ok a /\ py_max (values d) = Ok b /\
    In (1%nat,
        Fill (fst (List.split (triangle_coordinates 0 0 true)))
             (snd (List.split (triangle_coordinates 0 0 true)))
             (colormapper ((v00 + v01 + v10) / float 3)%Qc a b
                          (Some DEFAULT_COLOR_MAP))
             (colormapper ((v00 + v01 + v10) / float 3)%Qc a b
                          (Some DEFAULT_COLOR_MAP)))
       (drawn w').
Proof.
  intros d w.
  assert (H00 : d !! (0, 0) = Some v00) by apply lookup_insert_eq.
  assert (H01 : d !! (0, 0 + 1) = Some v01).
  { unfold d. rewrite lookup_insert_ne by discriminate. apply lookup_insert_eq. }
  assert (H10 : d !! (0 + 1, 0) = Some v10).
  { unfold d. rewrite !lookup_insert_ne by discriminate. apply lookup_insert_eq. }
  destruct (py_min_values d _ _ H00) as (a & Hmin).
  destruct (py_max_values d _ _ H00) as (b & Hmax).
  destruct (heatmap_triangular_run d 1 None true (Some 0%nat) false w
              0%nat w DEFAULT_COLOR_MAP a b eq_refl eq_refl Hmin Hmax)
    as (w2 & w' & _ & Hrun & Hd').
  exists w', a, b. split; [exact Hrun|]. split; [exact Hmin|]. split; [exact Hmax|].
  rewrite Hd'. apply in_or_app. right. apply in_or_app. left.
  unfold alt_fills. cbv zeta.
  apply in_flat_map. exists 0. split; [now left|].
  apply in_flat_map. exists 0. split; [now left|].
  unfold alt_fill. rewrite H00, H01, H10. now left.
Qed.

(** C5, as the code has it.  On an empty value map, for a call whose
    palette name resolves, [heatmap_triangular] raises the [ValueError] of
    [min] over an empty sequence and draws nothing, and so does
    [heatmap_hexagonal] when no [min_max_scale] is given.  With an explicit
    [min_max_scale] the range is not computed from the map:
    [heatmap_hexagonal] then completes on an empty map, fills no cell,
    attaches the colorbar and returns its axes. *)
Theorem empty_map_fails steps cmap_name boundary ax scientific w :
  palette_known cmap_name ->
  (exists w',
     heatmap_triangular ∅ steps cmap_name boundary ax scientific w =
       (Raise (ValueError empty_min), w') /\
     drawn w' = drawn w) /\
  (exists w',
     heatmap_hexagonal ∅ steps cmap_name boundary ax scientific None w =
       (Raise (ValueError empty_min), w') /\
     drawn w' = drawn w) /\
  (forall lo hi, exists ax' w' cmap,
     heatmap_hexagonal ∅ steps cmap_name boundary ax scientific
       (Some (lo, hi)) w = (Ok ax', w') /\
     drawn w' =
       drawn w ++ [(ax', Colorbar cmap lo hi "%.4f" (Some 7) scientific)]).
Proof.
  intros Hpal.
  destruct (resolve_ax_run ax w) as (ax' & w1 & Hax & Hd1 & _).
  destruct (resolve_cmap_known cmap_name Hpal) as (cmap & Hcmap).
  assert (Hvalues : values (∅ : gmap (Z * Z) Qc) = []).
  { unfold values. now rewrite map_to_list_empty. }
  assert (Hitems : items (∅ : gmap (Z * Z) Qc) = []).
  { unfold items. now rewrite map_to_list_empty. }
  split; [|split].
  - exists w1. unfold heatmap_triangular, bind, lift.
    rewrite Hax, Hcmap, Hvalues. now split.
  - exists w1. unfold heatmap_hexagonal, bind, lift.
    rewrite Hax, Hcmap, Hvalues. now split.
  - intros lo hi. exists ax'. eexists. exists cmap.
    unfold heatmap_hexagonal, bind, lift, ret.
    rewrite Hax, Hcmap, Hitems. simpl. split; [reflexivity|].
    simpl. now rewrite Hd1.
Qed.

(** ** Properties of the projection of points and of sequences *)

Lemma sqrt3_bounds : (0 < sqrt 3 /\ sqrt 3 * sqrt 3 = 3 /\ sqrt 3 < 1.8)%R.
Proof.
  assert (Hpos : (0 < sqrt 3)%R) by (apply sqrt_lt_R0; lra).
  assert (Hsq : (sqrt 3 * sqrt 3 = 3)%R) by (apply sqrt_sqrt; lra).
  repeat split; try assumption. nra.
Qed.

Lemma project_point_simplex (scale a b c : R) :
  (0 <= a)%R -> (0 <= b)%R -> (0 <= c)%R -> (a + b + c = scale)%R ->
  visible scale (fst (project_point (a, b, c)))
                (snd (project_point (a, b, c))).
Proof.
  intros Ha Hb Hc Hsum. unfold visible, project_point, SQRT3OVER2.
  cbn [fst snd]. destruct sqrt3_bounds as (Hpos & Hsq & Hlt).
  repeat split; nra.
Qed.

(** The range that [resize_drawing_canvas] makes visible holds the whole
    simplex: the projection of every point of the simplex of size [scale]
    (non-negative coordinates summing to [scale]) is within the limits it
    sets, with a margin of a twentieth of [scale] on the left, on the right
    and below. *)
Theorem project_point_within_limits (scale a b c : R) ax cv :
  (0 <= a)%R -> (0 <= b)%R -> (0 <= c)%R -> (a + b + c = scale)%R ->
  resize_drawing_canvas ax scale cv =
  (Ok tt, mkCanvas (pyplot cv)
            (artists cv ++ [(ax, SetYlim (-0.05 * scale) (0.90 * scale));
                            (ax, SetXlim (-0.05 * scale) (1.05 * scale))]%R)) /\
  (-0.05 * scale <= fst (project_point (a, b, c)) <= 1.05 * scale)%R /\
  (-0.05 * scale <= snd (project_point (a, b, c)) <= 0.90 * scale)%R.
Proof.
  intros Ha Hb Hc Hsum.
  destruct (project_point_simplex scale a b c Ha Hb Hc Hsum) as (Hx & Hy).
  split; [|split; [exact Hx|exact Hy]].
  unfold resize_drawing_canvas, add_artist, lbind. cbn [pyplot artists].
  now rewrite <- app_assoc.
Qed.

Lemma split_map {A B C} (f : A -> B * C) (l : list A) :
  List.split (map f l) =
  (map (fun x => fst (f x)) l, map (fun x => snd (f x)) l).
Proof.
  induction l as [|x l IH]; [reflexivity|].
  cbn [map List.split]. rewrite IH. now destruct (f x).
Qed.

Lemma project_sequence p s :
  project (Sequence (p :: s)) =
  Ok (XsYs (map (fun q => fst (project_point q)) (p :: s))
           (map (fun q => snd (project_point q)) (p :: s))).
Proof.
  unfold project. rewrite unzip_split by discriminate.
  cbn [rbind]. now rewrite split_map.
Qed.

Lemma in_pyplot_resolve_ax ax c :
  exists ax' w1,
    resolve_ax ax (pyplot c) = (Ok ax', w1) /\
    in_pyplot (resolve_ax ax) c = (Ok ax', mkCanvas w1 (artists c)) /\
    (forall ax0, ax = Some ax0 -> ax' = ax0 /\ w1 = pyplot c).
Proof.
  destruct (resolve_ax_run ax (pyplot c)) as (ax' & w1 & Hax & _ & Hsome & _).
  exists ax', w1. split; [exact Hax|]. split; [|exact Hsome].
  unfold in_pyplot. now rewrite Hax.
Qed.

(** [plot] on a non-empty sequence of points issues one curve on its axes
    and returns the axes; the curve has one vertex per point, in the order
    of the points, each the projection of its point.  On an empty sequence
    the unpacking of the projection raises [ValueError] and no curve is
    issued. *)
Theorem plot_sequence (s : list (R * R * R)) steps ax kwargs c :
  exists ax' w1,
    resolve_ax ax (pyplot c) = (Ok ax', w1) /\
    match s with
    | [] =>
        plot (Sequence s) steps ax kwargs c =
        (Raise (ValueError unpack_empty), mkCanvas w1 (artists c))
    | _ :: _ =>
        exists xs ys,
          plot (Sequence s) steps ax kwargs c =
          (Ok ax', mkCanvas w1 (artists c ++ [(ax', PlotCurve xs ys kwargs)])) /\
          length xs = length s /\ length ys = length s /\
          forall k p, nth_error s k = Some p ->
            nth_error xs k = Some (fst (project_point p)) /\
            nth_error ys k = Some (snd (project_point p))
    end.
Proof.
  destruct (in_pyplot_resolve_ax ax c) as (ax' & w1 & Hax & Hrun & _).
  exists ax', w1. split; [exact Hax|].
  destruct s as [|p s].
  - unfold plot, lbind. now rewrite Hrun.
  - eexists _, _. split; [|split; [|split]].
    + unfold plot, lbind, llift. rewrite Hrun, project_sequence. reflexivity.
    + apply length_map.
    + apply length_map.
    + intros k q Hk. split; rewrite nth_error_map, Hk; reflexivity.
Qed.

(** ** Properties of the boundary and of the gridlines *)

Lemma canvas_eq w l l' : l = l' -> mkCanvas w l = mkCanvas w l'.
Proof. now intros ->. Qed.

Lemma line_eq x1 x2 y1 y2 x1' x2' y1' y2' kwargs :
  x1 = x1' -> x2 = x2' -> y1 = y1' -> y2 = y2' ->
  Line2D (x1, x2) (y1, y2) kwargs = Line2D (x1', x2') (y1', y2') kwargs.
Proof. now intros -> -> -> ->. Qed.

Lemma draw_boundary_run (scale : R) ax kwargs c :
  exists ax' w1,
    resolve_ax ax (pyplot c) = (Ok ax', w1) /\
    draw_boundary scale ax kwargs c =
    (Ok ax',
     mkCanvas w1
       (artists c ++
        [ (ax', SetYlim (-0.05 * scale) (0.90 * scale));
          (ax', SetXlim (-0.05 * scale) (1.05 * scale));
          (ax', Line2D (scale, 0) (0, 0) kwargs);
          (ax', Line2D (scale / 2, 0) (scale * sqrt 3 / 2, 0) kwargs);
          (ax', Line2D (scale, scale / 2) (0, scale * sqrt 3 / 2) kwargs) ]%R)).
Proof.
  destruct (in_pyplot_resolve_ax ax c) as (ax' & w1 & Hax & Hrun & _).
  exists ax', w1. split; [exact Hax|].
  unfold draw_boundary, lbind. rewrite Hrun.
  unfold resize_drawing_canvas, draw_horizontal_line, draw_left_parallel_line,
    draw_right_parallel_line, draw_line, add_artist, lbind, lret.
  cbn [pyplot artists]. f_equal. apply canvas_eq.
  rewrite <- !app_assoc. cbn [app]. f_equal.
  unfold project_point, SQRT3OVER2. cbn [fst snd].
  repeat (f_equal; try (apply line_eq; lra)).
Qed.


(** [draw_boundary] sets the visible range and then draws the three sides
    of the triangle with corners [(0,0)], [(scale,0)] and
    [(scale/2, scale * sqrt 3 / 2)]: the bottom side, the left side and the
    right side, all on the axes it returns.  For a non-negative [scale]
    the three corners are inside the visible range. *)
Theorem draw_boundary_triangle (scale : R) ax kwargs c :
  exists ax' w1,
    resolve_ax ax (pyplot c) = (Ok ax', w1) /\
    draw_boundary scale ax kwargs c =
    (Ok ax',
     mkCanvas w1
       (artists c ++
        [ (ax', SetYlim (-0.05 * scale) (0.90 * scale));
          (ax', SetXlim (-0.05 * scale) (1.05 * scale));
          (ax', Line2D (scale, 0) (0, 0) kwargs);
          (ax', Line2D (scale / 2, 0) (scale * sqrt 3 / 2, 0) kwargs);
          (ax', Line2D (scale, scale / 2) (0, scale * sqrt 3 / 2) kwargs) ]%R)) /\
    ((0 <= scale)%R ->
     visible scale 0 0 /\ visible scale scale 0 /\
     visible scale (scale / 2) (scale * sqrt 3 / 2)).
Proof.
  destruct (draw_boundary_run scale ax kwargs c) as (ax' & w1 & Hax & Hrun).
  exists ax', w1. split; [exact Hax|]. split; [exact Hrun|].
  intros Hscale. destruct sqrt3_bounds as (Hpos & _ & Hlt).
  unfold visible. repeat split; nra.
Qed.

Lemma lfor_each_emits {A} (body : A -> L unit) (f : A -> list (AxId * Artist)) :
  (forall x c, body x c = (Ok tt, mkCanvas (pyplot c) (artists c ++ f x))) ->
  forall l c,
    lfor_each l body c =
    (Ok tt, mkCanvas (pyplot c) (artists c ++ flat_map f l)).
Proof.
  intros Hbody l. induction l as [|x l IH]; intros c.
  - cbn. rewrite app_nil_r. now destruct c.
  - cbn [lfor_each flat_map]. unfold lbind. rewrite Hbody, IH.
    cbn [pyplot artists]. now rewrite <- app_assoc.
Qed.

(** The lines [draw_gridlines] issues, in order: the horizontal lines of
    levels [1 .. steps-1], then the left and the right line of each level
    [1 .. steps]. *)
Lemma draw_gridlines_run (steps : Z) ax kwargs c :
  exists ax' w1,
    resolve_ax ax (pyplot c) = (Ok ax', w1) /\
    draw_gridlines steps ax kwargs c =
    (Ok ax',
     mkCanvas w1
       (artists c ++
        [ (ax', SetYlim (-0.05 * IZR steps) (0.90 * IZR steps));
          (ax', SetXlim (-0.05 * IZR steps) (1.05 * IZR steps)) ]%R ++
        flat_map (fun i =>
          [ (ax', Line2D
                    (fst (project_point (0, IZR steps - IZR i, IZR i)),
                     fst (project_point (IZR steps - IZR i, 0, IZR i)))
                    (snd (project_point (0, IZR steps - IZR i, IZR i)),
                     snd (project_point (IZR steps - IZR i, 0, IZR i)))
                    kwargs) ]%R)
          (range 1 steps) ++
        flat_map (fun i =>
          [ (ax', Line2D
                    (fst (project_point (0, IZR i, IZR steps - IZR i)),
                     fst (project_point (IZR steps - IZR i, IZR i, 0)))
                    (snd (project_point (0, IZR i, IZR steps - IZR i)),
                     snd (project_point (IZR steps - IZR i, IZR i, 0)))
                    kwargs);
            (ax', Line2D
                    (fst (project_point (IZR i, IZR steps - IZR i, 0)),
                     fst (project_point (IZR i, 0, IZR steps - IZR i)))
                    (snd (project_point (IZR i, IZR steps - IZR i, 0)),
                     snd (project_point (IZR i, 0, IZR steps - IZR i)))
                    kwargs) ]%R)
          (range 1 (steps + 1)))).
Proof.
  destruct (in_pyplot_resolve_ax ax c) as (ax' & w1 & Hax & Hrun & _).
  exists ax', w1. split; [exact Hax|].
  unfold draw_gridlines, lbind. rewrite Hrun.
  unfold resize_drawing_canvas, add_artist, lbind. cbn [pyplot artists].
  rewrite (lfor_each_emits _ (fun i =>
    [ (ax', Line2D
              (fst (project_point (0, IZR steps - IZR i, IZR i)),
               fst (project_point (IZR steps - IZR i, 0, IZR i)))
              (snd (project_point (0, IZR steps - IZR i, IZR i)),
               snd (project_point (IZR steps - IZR i, 0, IZR i)))
              kwargs) ]%R)) by reflexivity.
  rewrite (lfor_each_emits _ (fun i =>
    [ (ax', Line2D
              (fst (project_point (0, IZR i, IZR steps - IZR i)),
               fst (project_point (IZR steps - IZR i, IZR i, 0)))
              (snd (project_point (0, IZR i, IZR steps - IZR i)),
               snd (project_point (IZR steps - IZR i, IZR i, 0)))
              kwargs);
      (ax', Line2D
              (fst (project_point (IZR i, IZR steps - IZR i, 0)),
               fst (project_point (IZR i, 0, IZR steps - IZR i)))
              (snd (project_point (IZR i, IZR steps - IZR i, 0)),
               snd (project_point (IZR i, 0, IZR steps - IZR i)))
              kwargs) ]%R)).
  2:{ intros i c0. unfold draw_left_parallel_line, draw_right_parallel_line,
        draw_line, add_artist, lbind. cbn [pyplot artists].
      now rewrite <- app_assoc. }
  cbn [pyplot artists]. unfold lret. f_equal. apply canvas_eq.
  now rewrite <- !app_assoc.
Qed.

Lemma length_range lo hi : length (range lo hi) = Z.to_nat (hi - lo).
Proof. unfold range. now rewrite length_map, length_seq. Qed.

Lemma range_snoc (lo hi : Z) : lo <= hi -> range lo (hi + 1) = range lo hi ++ [hi].
Proof.
  intros H. unfold range.
  replace (Z.to_nat (hi + 1 - lo)) with (S (Z.to_nat (hi - lo))) by lia.
  rewrite seq_S, map_app. cbn [map]. do 2 f_equal. lia.
Qed.

(** [draw_gridlines] sets the visible range and then issues, on the axes
    it returns, the horizontal lines of the levels [1 .. steps-1], in this
    order, followed by the pairs of a left and a right line of the levels
    [1 .. steps], in this order, and nothing else (no line at all when
    [steps <= 0]).  A horizontal line has both ends at one height, a left
    line ends and a right line starts on the bottom side, and both ends of
    every line are in the visible range.  The last pair, of level [steps],
    consists of two lines of length zero, at the corners [(steps, 0)] and
    [(0, 0)]. *)
Theorem draw_gridlines_lines (steps : Z) ax kwargs c :
  let horizontal ax' i :=
    line_between ax' (project_point (0, IZR steps - IZR i, IZR i)%R)
                     (project_point (IZR steps - IZR i, 0, IZR i)%R) kwargs in
  let left ax' i :=
    line_between ax' (project_point (0, IZR i, IZR steps - IZR i)%R)
                     (project_point (IZR steps - IZR i, IZR i, 0)%R) kwargs in
  let right ax' i :=
    line_between ax' (project_point (IZR i, IZR steps - IZR i, 0)%R)
                     (project_point (IZR i, 0, IZR steps - IZR i)%R) kwargs in
  exists ax' w1,
    resolve_ax ax (pyplot c) = (Ok ax', w1) /\
    draw_gridlines steps ax kwargs c =
    (Ok ax',
     mkCanvas w1
       (artists c ++
        [ (ax', SetYlim (-0.05 * IZR steps) (0.90 * IZR steps));
          (ax', SetXlim (-0.05 * IZR steps) (1.05 * IZR steps)) ]%R ++
        map (horizontal ax') (range 1 steps) ++
        flat_map (fun i => [left ax' i; right ax' i]) (range 1 (steps + 1)))) /\
    length (map (horizontal ax') (range 1 steps)) = Z.to_nat (steps - 1) /\
    length (flat_map (fun i => [left ax' i; right ax' i])
                     (range 1 (steps + 1))) = (2 * Z.to_nat steps)%nat /\
    (forall i, 1 <= i <= steps ->
       forall a b c0 : R,
         In (a, b, c0)
            [ (0, IZR steps - IZR i, IZR i); (IZR steps - IZR i, 0, IZR i);
              (0, IZR i, IZR steps - IZR i); (IZR steps - IZR i, IZR i, 0);
              (IZR i, IZR steps - IZR i, 0); (IZR i, 0, IZR steps - IZR i) ]%R ->
         visible (IZR steps) (fst (project_point (a, b, c0)%R))
                             (snd (project_point (a, b, c0)%R))) /\
    (forall i,
       snd (project_point (0, IZR steps - IZR i, IZR i)%R) =
       snd (project_point (IZR steps - IZR i, 0, IZR i)%R) /\
       snd (project_point (IZR steps - IZR i, IZR i, 0)%R) = 0%R /\
       snd (project_point (IZR i, IZR steps - IZR i, 0)%R) = 0%R)%R /\
    (1 <= steps ->
     flat_map (fun i => [left ax' i; right ax' i]) (range 1 (steps + 1)) =
     flat_map (fun i => [left ax' i; right ax' i]) (range 1 steps) ++
     [ (ax', Line2D (IZR steps, IZR steps) (0, 0)%R kwargs);
       (ax', Line2D (0, 0)%R (0, 0)%R kwargs) ]).
Proof.
  cbv zeta.
  destruct (draw_gridlines_run steps ax kwargs c) as (ax' & w1 & Hax & Hrun).
  exists ax', w1. split; [exact Hax|]. split; [|split; [|split; [|split; [|split]]]].
  - rewrite Hrun.
    assert (Hmap : forall (f : Z -> AxId * Artist) l,
               flat_map (fun i => [f i]) l = map f l).
    { intros f l. induction l as [|i l IH]; [reflexivity|].
      cbn [flat_map map app]. now rewrite IH. }
    now rewrite <- Hmap.
  - now rewrite length_map, length_range.
  - rewrite (flat_map_constant_length (c := 2%nat)) by reflexivity.
    rewrite length_range. lia.
  - intros i Hi a b c0 Hin.
    assert (H1 : (1 <= IZR i)%R) by (apply IZR_le; lia).
    assert (H2 : (IZR i <= IZR steps)%R) by (apply IZR_le; lia).
    cbn [In] in Hin.
    destruct Hin as [E|[E|[E|[E|[E|[E|[]]]]]]]; injection E as <- <- <-;
      apply project_point_simplex; lra.
  - intros i. unfold project_point, SQRT3OVER2. cbn [fst snd].
    repeat split; lra.
  - intros Hsteps. rewrite range_snoc by lia. rewrite flat_map_app.
    f_equal. cbn [flat_map app]. unfold line_between, project_point, SQRT3OVER2.
    cbn [fst snd]. repeat (f_equal; try (apply line_eq; lra)).
Qed.

(** ** Properties of [plot_multiple] *)

Lemma lbind_ok {A B} (m : L A) (k : A -> L B) c a c' :
  m c = (Ok a, c') -> lbind m k c = k a c'.
Proof. intros H. unfold lbind. now rewrite H. Qed.

Lemma lbind_raise {A B} (m : L A) (k : A -> L B) c e c' :
  m c = (Raise e, c') -> lbind m k c = (Raise e, c').
Proof. intros H. unfold lbind. now rewrite H. Qed.

Lemma plot_on ax t steps kwargs c :
  plot t steps (Some ax) kwargs c =
  match project t with
  | Ok xy => (Ok ax, mkCanvas (pyplot c) (artists c ++ [(ax, plotted xy kwargs)]))
  | Raise e => (Raise e, c)
  end.
Proof.
  unfold plot, lbind, in_pyplot, llift, add_artist, lret. cbn.
  destruct (project t); cbn; [reflexivity|now destruct c].
Qed.

Lemma project_defined t : t <> Sequence [] -> exists xy, project t = Ok xy.
Proof.
  destruct t as [p|[|p s]]; intros Ht.
  - eexists. reflexivity.
  - contradiction.
  - eexists. apply project_sequence.
Qed.

Lemma plot_all ax kwargs ts c :
  Forall (fun t => t <> Sequence []) ts ->
  exists curves,
    lfor_each ts (fun t => plot t 1 (Some ax) kwargs ;~ lret tt) c =
    (Ok tt, mkCanvas (pyplot c) (artists c ++ curves)) /\
    Forall2 (fun t a => exists xy, project t = Ok xy /\
                                   a = (ax, plotted xy kwargs)) ts curves.
Proof.
  intros Hts. revert c. induction Hts as [|t ts Ht Hts IH]; intros c.
  - exists []. cbn. rewrite app_nil_r. split; [now destruct c|constructor].
  - destruct (project_defined t Ht) as (xy & Hxy).
    destruct (IH (mkCanvas (pyplot c) (artists c ++ [(ax, plotted xy kwargs)])))
      as (curves & Hrun & Hall).
    exists ((ax, plotted xy kwargs) :: curves). split.
    + cbn [lfor_each]. unfold lbind at 1 2. rewrite plot_on, Hxy.
      unfold lret at 1. rewrite Hrun. cbn [pyplot artists].
      now rewrite <- app_assoc.
    + constructor; [now exists xy|exact Hall].
Qed.

Lemma lfor_each_app {A} (body : A -> L unit) l1 l2 c :
  lfor_each (l1 ++ l2) body c =
  match lfor_each l1 body c with
  | (Ok _, c') => lfor_each l2 body c'
  | (Raise e, c') => (Raise e, c')
  end.
Proof.
  revert c. induction l1 as [|x l1 IH]; intros c; [reflexivity|].
  cbn [app lfor_each]. unfold lbind.
  destruct (body x c) as [[[]|e] c1]; [apply IH|reflexivity].
Qed.

(** [plot_multiple] on trajectories none of which is an empty sequence:
    one curve per trajectory, in the order given, each the projection of
    its trajectory drawn with the given line width, and then the boundary
    of the unit simplex, all on the axes that is returned. *)
Theorem plot_multiple_curves_then_boundary ts linewidth ax c :
  Forall (fun t => t <> Sequence []) ts ->
  exists ax' w1 curves,
    resolve_ax ax (pyplot c) = (Ok ax', w1) /\
    plot_multiple ts linewidth ax c =
    (Ok ax',
     mkCanvas w1
       (artists c ++ curves ++
        [ (ax', SetYlim (-0.05 * 1) (0.90 * 1));
          (ax', SetXlim (-0.05 * 1) (1.05 * 1));
          (ax', Line2D (1, 0) (0, 0) []);
          (ax', Line2D (1 / 2, 0) (1 * sqrt 3 / 2, 0) []);
          (ax', Line2D (1, 1 / 2) (0, 1 * sqrt 3 / 2) []) ]%R)) /\
    Forall2 (fun t a =>
      exists xy, project t = Ok xy /\
                 a = (ax', plotted xy [("linewidth"%string, KwNum linewidth)]))
      ts curves.
Proof.
  intros Hts.
  destruct (in_pyplot_resolve_ax ax c) as (ax' & w1 & Hax & Hrun & _).
  destruct (plot_all ax' [("linewidth"%string, KwNum linewidth)] ts
              (mkCanvas w1 (artists c)) Hts) as (curves & Hloop & Hall).
  destruct (draw_boundary_run 1 (Some ax') []
              (mkCanvas w1 (artists c ++ curves)))
    as (ax'' & w2 & Hax2 & Hb).
  cbn in Hax2. injection Hax2 as <- <-.
  exists ax', w1, curves. split; [exact Hax|]. split; [|exact Hall].
  unfold plot_multiple.
  rewrite (lbind_ok _ _ _ _ _ Hrun), (lbind_ok _ _ _ _ _ Hloop).
  cbn [pyplot artists]. rewrite (lbind_ok _ _ _ _ _ Hb).
  unfold lret. cbn [pyplot artists]. now rewrite <- app_assoc.
Qed.

(** [plot_multiple] stops at the first trajectory that is an empty
    sequence: it raises [ValueError], the curves of the trajectories
    before it stay on the axes, and neither the later curves nor the
    boundary are drawn. *)
Theorem plot_multiple_empty_trajectory ts rest linewidth ax c :
  Forall (fun t => t <> Sequence []) ts ->
  exists ax' w1 curves,
    resolve_ax ax (pyplot c) = (Ok ax', w1) /\
    plot_multiple (ts ++ Sequence [] :: rest) linewidth ax c =
    (Raise (ValueError unpack_empty), mkCanvas w1 (artists c ++ curves)) /\
    Forall2 (fun t a =>
      exists xy, project t = Ok xy /\
                 a = (ax', plotted xy [("linewidth"%string, KwNum linewidth)]))
      ts curves.
Proof.
  intros Hts.
  destruct (in_pyplot_resolve_ax ax c) as (ax' & w1 & Hax & Hrun & _).
  destruct (plot_all ax' [("linewidth"%string, KwNum linewidth)] ts
              (mkCanvas w1 (artists c)) Hts) as (curves & Hloop & Hall).
  exists ax', w1, curves. split; [exact Hax|]. split; [|exact Hall].
  unfold plot_multiple. rewrite (lbind_ok _ _ _ _ _ Hrun).
  apply lbind_raise. rewrite lfor_each_app, Hloop.
  cbn [lfor_each pyplot artists]. apply lbind_raise, lbind_raise.
  now rewrite plot_on.
Qed.

(** ** More on the lattice *)

Lemma sum_descending (n : nat) (c : Z) :
  Z.of_nat n <= c + 1 ->
  2 * Z.of_nat (list_sum (map (fun k => Z.to_nat (c - Z.of_nat k)) (seq 0 n))) =
  Z.of_nat n * (2 * c - Z.of_nat n + 1).
Proof.
  induction n as [|n IH]; intros Hn; [reflexivity|].
  rewrite seq_S, map_app, list_sum_app. cbn [map Nat.add].
  replace (list_sum [Z.to_nat (c - Z.of_nat n)])
    with (Z.to_nat (c - Z.of_nat n)) by (cbn; lia).
  rewrite Nat2Z.inj_add, Z2Nat.id by lia.
  assert (IH' := IH ltac:(lia)). rewrite Nat2Z.inj_succ in *. nia.
Qed.

Lemma simplex_points_length (steps : Z) (boundary : bool) :
  let start := if boundary then 0 else 1 in
  2 * start <= steps + 1 ->
  2 * Z.of_nat (length (simplex_points steps boundary)) =
  (steps + 1 - 2 * start) * (steps + 2 - 4 * start).
Proof.
  cbv zeta. intros Hs. unfold simplex_points. cbv zeta.
  set (start := if boundary then 0 else 1) in *.
  assert (Hstart : 0 <= start <= 1) by (subst start; destruct boundary; lia).
  rewrite length_flat_map. unfold range at 2. rewrite map_map.
  replace (steps + (1 - start) - start) with (steps + 1 - 2 * start) by lia.
  rewrite (map_ext _ (fun k => Z.to_nat (steps + 1 - 3 * start - Z.of_nat k))).
  2:{ intros k. rewrite length_map, length_range. f_equal. lia. }
  rewrite sum_descending by lia. rewrite Z2Nat.id by lia. lia.
Qed.

(** The number of lattice points: [(steps+1)(steps+2)/2] with the boundary
    and [(steps-1)(steps-2)/2] without it.  The enumeration is empty when
    [steps] is negative, and without the boundary also when [steps <= 2]. *)
Theorem simplex_points_count (steps : Z) :
  (0 <= steps ->
   2 * Z.of_nat (length (simplex_points steps true)) =
   (steps + 1) * (steps + 2)) /\
  (1 <= steps ->
   2 * Z.of_nat (length (simplex_points steps false)) =
   (steps - 1) * (steps - 2)) /\
  (steps < 0 -> simplex_points steps true = []) /\
  (steps <= 2 -> simplex_points steps false = []).
Proof.
  split; [|split; [|split]].
  - intros Hs. rewrite (simplex_points_length steps true) by (cbv zeta; lia). lia.
  - intros Hs. rewrite (simplex_points_length steps false) by (cbv zeta; lia). lia.
  - intros Hs. destruct (simplex_points steps true) as [|[[x1 x2] x3] l] eqn:E;
      [reflexivity|].
    assert (Hin : In (x1, x2, x3) (simplex_points steps true))
      by (rewrite E; now left).
    apply simplex_points_in in Hin. cbv zeta in Hin. lia.
  - intros Hs. destruct (simplex_points steps false) as [|[[x1 x2] x3] l] eqn:E;
      [reflexivity|].
    assert (Hin : In (x1, x2, x3) (simplex_points steps false))
      by (rewrite E; now left).
    apply simplex_points_in in Hin. cbv zeta in Hin. lia.
Qed.

Lemma loop_lt_irrefl p : ~ loop_lt p p.
Proof. destruct p as [[p1 p2] p3]. simpl. lia. Qed.

Lemma loop_lt_trans p q r : loop_lt p q -> loop_lt q r -> loop_lt p r.
Proof.
  destruct p as [[p1 p2] p3], q as [[q1 q2] q3], r as [[r1 r2] r3]. simpl. lia.
Qed.

(** Two enumerations in loop order with the same points are the same
    list. *)
Lemma loop_sorted_unique (l l' : list (Z * Z * Z)) :
  StronglySorted loop_lt l -> StronglySorted loop_lt l' ->
  (forall p, In p l <-> In p l') -> l = l'.
Proof.
  intros Hl. revert l'. induction Hl as [|a l Hl IH Ha]; intros l' Hl' Hiff.
  - destruct l' as [|b l']; [reflexivity|].
    exfalso. apply (Hiff b). now left.
  - destruct Hl' as [|b l' Hl' Hb].
    { exfalso. apply (Hiff a). now left. }
    rewrite List.Forall_forall in Ha, Hb.
    assert (Hab : a = b).
    { assert (H1 : In a (b :: l')) by (apply Hiff; now left).
      assert (H2 : In b (a :: l)) by (apply Hiff; now left).
      destruct H1 as [H1|H1]; [now symmetry|].
      destruct H2 as [H2|H2]; [exact H2|].
      exfalso. apply (loop_lt_irrefl a).
      apply loop_lt_trans with b; [now apply Ha|now apply Hb]. }
    subst b. f_equal. apply IH; [exact Hl'|].
    intros p. split; intros Hp.
    + assert (H1 : In p (a :: l')) by (apply Hiff; now right).
      destruct H1 as [<-|H1]; [|exact H1].
      exfalso. apply (loop_lt_irrefl a). now apply Ha.
    + assert (H1 : In p (a :: l)) by (apply Hiff; now right).
      destruct H1 as [<-|H1]; [|exact H1].
      exfalso. apply (loop_lt_irrefl a). now apply Hb.
Qed.

(** Leaving out the boundary at resolution [steps] enumerates the lattice
    of resolution [steps - 3] with its boundary, moved one step inwards:
    the same points, each coordinate increased by one, in the same
    order. *)
Theorem simplex_points_interior_shift (steps : Z) :
  simplex_points steps false =
  map (fun p => let '(x1, x2, x3) := p in (x1 + 1, x2 + 1, x3 + 1))
      (simplex_points (steps - 3) true).
Proof.
  apply loop_sorted_unique.
  - apply simplex_points_sorted.
  - apply map_sorted with (RA := loop_lt); [|apply simplex_points_sorted].
    intros [[p1 p2] p3] [[q1 q2] q3]. simpl. lia.
  - intros [[x1 x2] x3]. rewrite simplex_points_in, in_map_iff. cbv zeta. split.
    + intros H. exists (x1 - 1, x2 - 1, x3 - 1). split.
      * f_equal; [f_equal|]; lia.
      * apply simplex_points_in. cbv zeta. lia.
    + intros ([[y1 y2] y3] & Heq & Hin). injection Heq as <- <- <-.
      apply simplex_points_in in Hin. cbv zeta in Hin. lia.
Qed.

(** ** The value map built by [plot_heatmap] *)





(** ** The color scale of the renderers *)

Lemma Qc_min_spec (x y : Qc) :
  (Qc_min x y <= x)%Qc /\ (Qc_min x y <= y)%Qc /\
  (Qc_min x y = x \/ Qc_min x y = y).
Proof.
  unfold Qc_min. destruct (decide (y < x)%Qc) as [H|H].
  - split; [now apply Qclt_le_weak|]. split; [apply Qcle_refl|now right].
  - split; [apply Qcle_refl|]. split; [now apply Qcnot_lt_le|now left].
Qed.

Lemma Qc_max_spec (x y : Qc) :
  (x <= Qc_max x y)%Qc /\ (y <= Qc_max x y)%Qc /\
  (Qc_max x y = x \/ Qc_max x y = y).
Proof.
  unfold Qc_max. destruct (decide (x < y)%Qc) as [H|H].
  - split; [now apply Qclt_le_weak|]. split; [apply Qcle_refl|now right].
  - split; [apply Qcle_refl|]. split; [now apply Qcnot_lt_le|now left].
Qed.

Lemma fold_min_spec (l : list Qc) (x : Qc) :
  In (fold_left Qc_min l x) (x :: l) /\
  forall y, In y (x :: l) -> (fold_left Qc_min l x <= y)%Qc.
Proof.
  revert x. induction l as [|z l IH]; intros x; cbn [fold_left].
  - split; [now left|]. intros y [<-|[]]. apply Qcle_refl.
  - destruct (IH (Qc_min x z)) as (Hin & Hle).
    destruct (Qc_min_spec x z) as (Hx & Hz & Hor). split.
    + destruct Hin as [Hin|Hin]; [|now right; right].
      rewrite <- Hin. destruct Hor as [->| ->]; [now left|now right; left].
    + intros y [<-|[<-|Hy]].
      * eapply Qcle_trans; [apply Hle; now left|exact Hx].
      * eapply Qcle_trans; [apply Hle; now left|exact Hz].
      * apply Hle. now right.
Qed.

Lemma fold_max_spec (l : list Qc) (x : Qc) :
  In (fold_left Qc_max l x) (x :: l) /\
  forall y, In y (x :: l) -> (y <= fold_left Qc_max l x)%Qc.
Proof.
  revert x. induction l as [|z l IH]; intros x; cbn [fold_left].
  - split; [now left|]. intros y [<-|[]]. apply Qcle_refl.
  - destruct (IH (Qc_max x z)) as (Hin & Hle).
    destruct (Qc_max_spec x z) as (Hx & Hz & Hor). split.
    + destruct Hin as [Hin|Hin]; [|now right; right].
      rewrite <- Hin. destruct Hor as [->| ->]; [now left|now right; left].
    + intros y [<-|[<-|Hy]].
      * eapply Qcle_trans; [exact Hx|apply Hle; now left].
      * eapply Qcle_trans; [exact Hz|apply Hle; now left].
      * apply Hle. now right.
Qed.

(** On a non-empty sequence [min] and [max] return members of the
    sequence that bound every member from below and from above. *)
Lemma py_min_max_bounds (x : Qc) (l : list Qc) :
  exists a b,
    py_min (x :: l) = Ok a /\ py_max (x :: l) = Ok b /\
    In a (x :: l) /\ In b (x :: l) /\
    forall y, In y (x :: l) -> (a <= y)%Qc /\ (y <= b)%Qc.
Proof.
  destruct (fold_min_spec l x) as (Hina & Hmin).
  destruct (fold_max_spec l x) as (Hinb & Hmax).
  eexists _, _. split; [reflexivity|]. split; [reflexivity|].
  split; [exact Hina|]. split; [exact Hinb|].
  intros y Hy. split; [now apply Hmin|now apply Hmax].
Qed.













(** ** The hexagonal renderer *)



(** ** [plot_heatmap] from end to end *)

Lemma renderers_empty steps cmap_name boundary ax scientific w :
  palette_known cmap_name ->
  exists ax' w1,
    resolve_ax ax w = (Ok ax', w1) /\
    heatmap_triangular ∅ steps cmap_name boundary ax scientific w =
      (Raise (ValueError empty_min), w1) /\
    heatmap_hexagonal ∅ steps cmap_name boundary ax scientific None w =
      (Raise (ValueError empty_min), w1).
Proof.
  intros Hpal.
  destruct (resolve_ax_run ax w) as (ax' & w1 & Hax & _).
  destruct (resolve_cmap_known cmap_name Hpal) as (cmap & Hcmap).
  assert (Hvalues : values (∅ : gmap (Z * Z) Qc) = []).
  { unfold values. now rewrite map_to_list_empty. }
  exists ax', w1. split; [exact Hax|]. split.
  - unfold heatmap_triangular, bind, lift. now rewrite Hax, Hcmap, Hvalues.
  - unfold heatmap_hexagonal, bind, lift. now rewrite Hax, Hcmap, Hvalues.
Qed.

(** When the lattice is empty ([steps < 0], or no boundary and
    [steps <= 2]) [plot_heatmap] builds an empty value map, and the
    renderer its style selects raises the [ValueError] of [min] over an
    empty sequence; nothing is drawn. *)
Theorem plot_heatmap_empty_lattice func (steps : Z) (boundary : bool)
        cmap_name ax style w :
  steps < 0 \/ (boundary = false /\ steps <= 2) ->
  palette_known cmap_name ->
  selects_renderer style ->
  exists w',
    plot_heatmap func steps boundary cmap_name ax style w =
      (Raise (ValueError empty_min), w') /\
    drawn w' = drawn w.
Proof.
  intros Hsteps Hpal Hstyle.
  assert (Hempty : simplex_points steps boundary = []).
  { destruct (simplex_points steps boundary) as [|[[x1 x2] x3] l] eqn:E;
      [reflexivity|].
    assert (Hin : In (x1, x2, x3) (simplex_points steps boundary))
      by (rewrite E; now left).
    apply simplex_points_in in Hin. cbv zeta in Hin.
    destruct Hsteps as [Hs|[-> Hs]]; [destruct boundary|]; lia. }
  destruct (renderers_empty steps cmap_name true ax false w Hpal)
    as (ax' & w1 & Hax & Htri & Hhex).
  destruct (resolve_ax_run ax w) as (ax'' & w1' & Hax' & Hd1 & _).
  rewrite Hax in Hax'. injection Hax' as <- <-.
  exists w1. split; [|exact Hd1].
  unfold plot_heatmap. rewrite Hempty. unfold bind at 1. cbn [sample lift].
  unfold bind at 1.
  destruct style as [s|].
  - destruct Hstyle as [Hs|Hs].
    + rewrite (heatmap_style_tri _ _ _ _ _ _ _ _ Hs). cbn [default].
      unfold bind. now rewrite Htri.
    + rewrite (heatmap_style_hex _ _ _ _ _ _ _ _ _ Hs). cbn [default].
      unfold bind. now rewrite Hhex.
  - rewrite heatmap_style_None. cbn [default]. unfold bind. now rewrite Htri.
Qed.



(** ** The geometry of the triangular tessellation *)

Lemma point_eq (x y x' y' : R) : x = x' -> y = y' -> (x, y) = (x', y').
Proof. now intros -> ->. Qed.

(** The vertices of the cells are projections of lattice points, with the
    first index of the cell in the place of the third simplex coordinate:
    the data triangle of [(i, j)] is on the projections of [(_, j, i)],
    [(_, j+1, i)] and [(_, j, i+1)], the alt triangle on those of
    [(_, j+1, i)], [(_, j+1, i+1)] and [(_, j, i+1)]. *)
Theorem triangle_vertices_are_projections (i j : Z) (a a' a'' : R) :
  triangle_coordinates i j false =
    map project_point
      [ (a, IZR j, IZR i); (a', IZR (j + 1), IZR i); (a'', IZR j, IZR (i + 1)) ] /\
  triangle_coordinates i j true =
    map project_point
      [ (a, IZR (j + 1), IZR i); (a', IZR (j + 1), IZR (i + 1));
        (a'', IZR j, IZR (i + 1)) ].
Proof.
  unfold triangle_coordinates, project_point. cbn [negb map].
  rewrite !plus_IZR.
  split; repeat (f_equal; try (apply point_eq; lra)).
Qed.

(** The alt triangle of [(i, j)] is the gap between the data triangles of
    [(i, j)], [(i, j+1)] and [(i+1, j)], the three cells whose values it
    averages: it shares one vertex with each pair of them. *)
Theorem alt_triangle_between_neighbours (i j : Z) :
  exists A B C D E F : R * R,
    triangle_coordinates i j false = [A; B; C] /\
    triangle_coordinates i (j + 1) false = [B; D; E] /\
    triangle_coordinates (i + 1) j false = [C; E; F] /\
    triangle_coordinates i j true = [B; E; C].
Proof.
  eexists _, _, _, _, _, _. split; [reflexivity|].
  unfold triangle_coordinates. cbn [negb]. rewrite !plus_IZR.
  split; [|split]; repeat (f_equal; try (apply point_eq; lra)).
Qed.

(** ** The dispatch of [heatmap] on a style that is given *)

(** With the [style] keyword present, [heatmap] deletes it and hands the
    other keywords to the renderer: [style=None] and a style whose
    lowercase form starts with "tri" run [heatmap_triangular], a style
    whose lowercase form starts with "hex" runs [heatmap_hexagonal];
    [boundary] defaults to [True] and [scientific] to [False], and the
    renderer's axes is returned. *)
Theorem heatmap_style_dispatch d steps cmap_name boundary ax scientific w :
  heatmap d steps
    (mkKwargs (Some None) cmap_name boundary ax scientific None) w =
  (ax <- heatmap_triangular d steps cmap_name (default true boundary) ax
           (default false scientific) ;; ret (Some ax)) w /\
  (forall style, startswith (lower style) "tri" = true ->
     heatmap d steps
       (mkKwargs (Some (Some style)) cmap_name boundary ax scientific None) w =
     (ax <- heatmap_triangular d steps cmap_name (default true boundary) ax
              (default false scientific) ;; ret (Some ax)) w) /\
  (forall style min_max_scale, startswith (lower style) "hex" = true ->
     heatmap d steps
       (mkKwargs (Some (Some style)) cmap_name boundary ax scientific
                 min_max_scale) w =
     (ax <- heatmap_hexagonal d steps cmap_name (default true boundary) ax
              (default false scientific) (default None min_max_scale) ;;
      ret (Some ax)) w).
Proof.
  split; [apply heatmap_style_None|]. split.
  - intros style Htri. now apply heatmap_style_tri.
  - intros style mms Hhex. now apply heatmap_style_hex.
Qed.

(** ** [normalize] on lists of any length *)







End Plotting.

Arguments mkWorld {RGBA} next_ax current drawn.
Arguments Fill {RGBA} x y facecolor edgecolor.
Arguments Colorbar {RGBA} cmap vmin vmax format numticks scalar_formatter.
Arguments drawn {RGBA} w.
Arguments mkCanvas {RGBA} pyplot artists.
Arguments pyplot {RGBA} c.
Arguments artists {RGBA} c.

(** ** The theorems at work on [Demo] *)

Lemma simplex_points_spec_witness :
  0 <= 3 /\
  (forall i1 i2 i3,
      In (i1, i2, i3) (simplex_points 3 true) <->
      0 <= i1 /\ 0 <= i2 /\ 0 <= i3 /\ i1 + i2 + i3 = 3).
Proof.
  split; [lia|]. apply (simplex_points_spec 3). lia.
Defined.

Lemma empty_map_fails_witness :
  palette_known Demo.RGBA Demo.get_cmap None /\
  exists w',
    heatmap_triangular Demo.RGBA Demo.jet Demo.get_cmap Demo.rgb2hex
      ∅ 3 None true None false (mkWorld 0%nat None []) =
    (Raise (ValueError empty_min), w') /\
    drawn w' = [].
Proof.
  split; [exact I|].
  apply (empty_map_fails Demo.RGBA Demo.jet Demo.get_cmap Demo.rgb2hex
           Demo.hex_coordinates 3 None true None false (mkWorld 0%nat None [])).
  exact I.
Defined.

(** On an empty value map, [heatmap_hexagonal] with an explicit
    [min_max_scale] does not fail: it returns its axes, with the colorbar
    as the only primitive. *)
Lemma empty_map_hexagonal_with_scale_returns :
  heatmap_hexagonal Demo.RGBA Demo.jet Demo.get_cmap Demo.rgb2hex
    Demo.hex_coordinates ∅ 3 None true None false (Some (0, 1)%Qc)
    (mkWorld 0%nat None []) =
  (Ok 0%nat,
   mkWorld 1%nat (Some 0%nat)
     [(0%nat, Colorbar Demo.jet 0%Qc 1%Qc "%.4f" (Some 7) false)]) /\
  ~ (exists e w',
       heatmap_hexagonal Demo.RGBA Demo.jet Demo.get_cmap Demo.rgb2hex
         Demo.hex_coordinates ∅ 3 None true None false (Some (0, 1)%Qc)
         (mkWorld 0%nat None []) = (Raise e, w')).
Proof.
  assert (Hrun :
    heatmap_hexagonal Demo.RGBA Demo.jet Demo.get_cmap Demo.rgb2hex
      Demo.hex_coordinates ∅ 3 None true None false (Some (0, 1)%Qc)
      (mkWorld 0%nat None []) =
    (Ok 0%nat,
     mkWorld 1%nat (Some 0%nat)
       [(0%nat, Colorbar Demo.jet 0%Qc 1%Qc "%.4f" (Some 7) false)])).
  { unfold heatmap_hexagonal, bind, lift, ret, items.
    rewrite map_to_list_empty. reflexivity. }
  split; [exact Hrun|].
  intros (e & w' & Hfail). rewrite Hrun in Hfail. discriminate.
Qed.

Lemma heatmap_unknown_style_noop_witness :
  startswith (lower "Square") "tri" = false /\
  startswith (lower "Square") "hex" = false /\
  heatmap Demo.RGBA Demo.jet Demo.get_cmap Demo.rgb2hex Demo.hex_coordinates
    (<[(0, 0) := 1%Qc]> ∅) 1
    (mkKwargs (Some (Some "Square"%string)) None None None None None)
    (mkWorld 0%nat None []) =
  (Ok None, mkWorld 0%nat None []).
Proof.
  split; [reflexivity|]. split; [reflexivity|].
  apply (heatmap_unknown_style_noop Demo.RGBA Demo.jet Demo.get_cmap
           Demo.rgb2hex Demo.hex_coordinates _ _ _ "Square"%string);
    reflexivity.
Defined.

Lemma project_point_within_limits_witness :
  (0 <= 1)%R /\ (0 <= 2)%R /\ (0 <= 3)%R /\ (1 + 2 + 3 = 6)%R /\
  (-0.05 * 6 <= fst (project_point (1, 2, 3)%R) <= 1.05 * 6)%R /\
  (-0.05 * 6 <= snd (project_point (1, 2, 3)%R) <= 0.90 * 6)%R.
Proof.
  split; [lra|]. split; [lra|]. split; [lra|]. split; [lra|].
  destruct (project_point_within_limits Demo.RGBA 6 1 2 3 0%nat
              (mkCanvas (mkWorld 0%nat None []) []))
    as (_ & Hx & Hy); [lra|lra|lra|lra|].
  split; [exact Hx|exact Hy].
Defined.

(** ** Double precision at work *)








Lemma plot_multiple_curves_then_boundary_witness :
  Forall (fun t => t <> Sequence []) [Sequence [(1, 0, 0); (0, 1, 0)]%R] /\
  exists ax' c',
    plot_multiple Demo.RGBA [Sequence [(1, 0, 0); (0, 1, 0)]%R] (float 2) None
      (mkCanvas (mkWorld 0%nat None []) []) = (Ok ax', c') /\
    length (artists c') = 6%nat.
Proof.
  assert (Hts : Forall (fun t => t <> Sequence [])
                       [Sequence [(1, 0, 0); (0, 1, 0)]%R]).
  { constructor; [discriminate|constructor]. }
  split; [exact Hts|].
  destruct (plot_multiple_curves_then_boundary Demo.RGBA
              [Sequence [(1, 0, 0); (0, 1, 0)]%R] (float 2) None
              (mkCanvas (mkWorld 0%nat None []) []) Hts)
    as (ax' & w1 & curves & _ & Hrun & Hcurves).
  eexists _, _. split; [exact Hrun|].
  apply Forall2_length in Hcurves. cbn [artists app].
  rewrite length_app. cbn in *. lia.
Defined.

Lemma plot_multiple_empty_trajectory_witness :
  Forall (fun t => t <> Sequence []) [Sequence [(1, 0, 0); (0, 1, 0)]%R] /\
  exists c',
    plot_multiple Demo.RGBA
      [Sequence [(1, 0, 0); (0, 1, 0)]%R; Sequence [];
       Sequence [(0, 0, 1)]%R] (float 2) None
      (mkCanvas (mkWorld 0%nat None []) []) =
    (Raise (ValueError unpack_empty), c') /\
    length (artists c') = 1%nat.
Proof.
  assert (Hts : Forall (fun t => t <> Sequence [])
                       [Sequence [(1, 0, 0); (0, 1, 0)]%R]).
  { constructor; [discriminate|constructor]. }
  split; [exact Hts|].
  destruct (plot_multiple_empty_trajectory Demo.RGBA
              [Sequence [(1, 0, 0); (0, 1, 0)]%R] [Sequence [(0, 0, 1)]%R]
              (float 2) None (mkCanvas (mkWorld 0%nat None []) []) Hts)
    as (ax' & w1 & curves & _ & Hrun & Hcurves).
  eexists. split; [exact Hrun|].
  apply Forall2_length in Hcurves. cbn [artists app length] in *. lia.
Defined.






Lemma plot_heatmap_empty_lattice_witness :
  (2 < 0 \/ (false = false /\ 2 <= 2)) /\
  selects_renderer None /\
  exists w',
    plot_heatmap Demo.RGBA Demo.jet Demo.get_cmap Demo.rgb2hex
      Demo.hex_coordinates (fun _ => 1%Qc) 2 false None None None
      (mkWorld 0%nat None []) = (Raise (ValueError empty_min), w').
Proof.
  assert (Hsteps : 2 < 0 \/ (false = false /\ 2 <= 2)) by (right; split; [reflexivity|lia]).
  split; [exact Hsteps|]. split; [exact I|].
  destruct (plot_heatmap_empty_lattice Demo.RGBA Demo.jet Demo.get_cmap
              Demo.rgb2hex Demo.hex_coordinates (fun _ => 1%Qc) 2 false None
              None None (mkWorld 0%nat None []) Hsteps I I)
    as (w' & Hrun & _).
  exists w'. exact Hrun.
Defined.


Lemma heatmap_triangular_own_axes_witness :
  palette_known Demo.RGBA Demo.get_cmap None /\
  exists ax' w',
    heatmap_triangular Demo.RGBA Demo.jet Demo.get_cmap Demo.rgb2hex
      (<[(0, 0) := 1%Qc]> ∅) 1 None true None false (mkWorld 0%nat None []) =
    (Ok ax', w') /\
    Forall (fun p => fst p = ax') (drawn w').
Proof.
  split; [exact I|].
  destruct (heatmap_triangular_own_axes Demo.RGBA Demo.jet Demo.get_cmap
              Demo.rgb2hex (<[(0, 0) := 1%Qc]> ∅) 1 None true false
              (mkWorld 0%nat None []) (0, 0) 1%Qc I (lookup_insert_eq _ _ _))
    as (ax' & w' & ps & Hrun & Hdrawn & Hps).
  exists ax', w'. split; [exact Hrun|]. now rewrite Hdrawn.
Defined.

